(** * steamvdf: a shallow embedding of the binary VDF decoder

    The development follows the TypeScript sources: [helper.ts]
    ([parseNumber], [parseString], [parseRawBytes]) and the three classes
    [VdfNode], [VdfGame] and [Vdf] of the decoder.  JavaScript values are
    modelled as the code manipulates them: a [Buffer] is a list of bytes,
    a number produced by bitwise operators is a 32-bit two's-complement
    integer held in [Z], a read on a paused [Readable] that has received
    its whole buffer is a function of the unread bytes, and a thrown
    exception is a result of its own. *)

From Stdlib Require Import ZArith List Bool Lia.
From Stdlib.Strings Require Import String Ascii Byte.
From Stdlib Require DecimalString.
Import ListNotations.

Local Open Scope Z_scope.
Local Set Warnings "-register-all".

(** ** JavaScript numbers and the 32-bit bitwise operators *)

(** A value that is either a JavaScript number or [undefined]
    ([None]); this is what indexing a [Buffer] yields. *)
Definition NumberOrUndefined := option Z.

(** [ToInt32]: reduction modulo 2^32 into the signed range. *)
Definition wrap32 (z : Z) : Z := (z + 2147483648) mod 4294967296 - 2147483648.

(** [ToInt32] of [undefined] is [ToInt32(NaN)], that is 0. *)
Definition ToInt32 (v : NumberOrUndefined) : Z :=
  match v with
  | Some z => wrap32 z
  | None => 0
  end.

(** [a << k]: the left operand is converted by [ToInt32], the shift count
    is taken modulo 32, the result is again an int32. *)
Definition js_shl (a : NumberOrUndefined) (k : Z) : Z :=
  wrap32 (Z.shiftl (ToInt32 a) (k mod 32)).

(** [a | b] on int32 operands. *)
Definition js_or (a b : NumberOrUndefined) : Z :=
  wrap32 (Z.lor (ToInt32 a) (ToInt32 b)).

(** ** Buffers and the readable stream *)

Definition Buffer := list byte.

Definition byte_to_Z (b : byte) : Z := Z.of_N (Byte.to_N b).

(** [buffer[i]]: the byte at index [i], [undefined] out of range. *)
Definition Buffer_get (buffer : Buffer) (i : nat) : NumberOrUndefined :=
  option_map byte_to_Z (nth_error buffer i).

(** The stream built by [_createStreamFromBuffer] pushes the whole buffer
    and then the end marker on its first [_read]; it is only ever read
    synchronously with [stream.read(n)].  Its state is the list of unread
    bytes. *)
Definition Readable := list byte.

(** [stream.read(n)] on such a stream (Node.js [Readable.read]): [null]
    when [n] is 0 or no byte is left; the next [n] bytes when they are
    available; and, the stream having ended, all the remaining bytes when
    fewer than [n] are left. *)
Definition Readable_read (stream : Readable) (n : nat)
  : option Buffer * Readable :=
  match n, stream with
  | O, _ => (None, stream)
  | _, [] => (None, stream)
  | _, _ => (Some (firstn n stream), skipn n stream)
  end.

(** ** Exceptions *)

Inductive Exn : Type :=
| TypeError                    (* property access on null or undefined *)
| Error (message : string).    (* [throw new Error(message)] *)

Inductive Result (A : Type) : Type :=
| Ok (a : A)
| Throw (e : Exn).
Arguments Ok {A} a.
Arguments Throw {A} e.

(** ** helper.ts *)

(** The body of the [for] loop of [parseNumber], run [iters] times from
    index [i]: [number |= (buffer[i] << (i * 8))]. *)
Fixpoint parseNumber_loop (buffer : Buffer) (i : nat) (iters : nat)
    (number : NumberOrUndefined) : NumberOrUndefined :=
  match iters with
  | O => number
  | S iters' =>
      parseNumber_loop buffer (S i) iters'
        (Some (js_or number (Some (js_shl (Buffer_get buffer i) (Z.of_nat i * 8)))))
  end.

(** [parseNumber(stream, length)].  [length] is a width in bits; every
    call site passes a multiple of 8, and [bytes] is [length / 8]. *)
Definition parseNumber (stream : Readable) (length : nat)
  : NumberOrUndefined * Readable :=
  let bytes := Nat.div length 8 in
  let '(r, stream) := Readable_read stream bytes in
  let buffer := match r with Some b => b | None => [x00] end in
  let number := Buffer_get buffer 0 in
  (parseNumber_loop buffer 1 (bytes - 1) number, stream).

(** [String.fromCharCode(code)] for a byte value. *)
Definition fromCharCode (b : byte) : string :=
  String (ascii_of_byte b) EmptyString.

(** The [while (true)] loop of [parseString], by recursion on the unread
    bytes: [stream.read(1)] is [null] on an exhausted stream, and
    indexing [null] throws a [TypeError]. *)
Fixpoint parseString_loop (stream : Readable) (str : string)
  : Result string * Readable :=
  match stream with
  | [] => (Throw TypeError, [])
  | code :: stream' =>
      if Byte.eqb code x00 then (Ok str, stream')
      else parseString_loop stream' (str ++ fromCharCode code)%string
  end.

Definition parseString (stream : Readable) : Result string * Readable :=
  parseString_loop stream EmptyString.

(** One hexadecimal digit of [Number.prototype.toString(16)]. *)
Definition hex_digit (d : Z) : ascii :=
  if d <? 10 then ascii_of_N (Z.to_N (48 + d))
  else ascii_of_N (Z.to_N (87 + d)).

(** [n.toString(16)] for a byte value [0 <= n < 256]: lowercase, and
    without a leading zero. *)
Definition toString16 (n : Z) : string :=
  if n <? 16 then String (hex_digit n) EmptyString
  else String (hex_digit (n / 16)) (String (hex_digit (n mod 16)) EmptyString).

(** The [for] loop of [parseRawBytes], run [iters] times from index [i]:
    [string += buffer[i].toString(16)] (the accumulator is [str]); calling [toString] on [undefined]
    throws a [TypeError]. *)
Fixpoint parseRawBytes_loop (buffer : Buffer) (i : nat) (iters : nat)
    (str : string) : Result string :=
  match iters with
  | O => Ok str
  | S iters' =>
      match Buffer_get buffer i with
      | None => Throw TypeError
      | Some n => parseRawBytes_loop buffer (S i) iters' (str ++ toString16 n)%string
      end
  end.

Definition parseRawBytes (stream : Readable) (length : nat)
  : Result string * Readable :=
  let bytes := Nat.div length 8 in
  let '(r, stream) := Readable_read stream bytes in
  let buffer := match r with Some b => b | None => [x00] end in
  (parseRawBytes_loop buffer 0 bytes EmptyString, stream).

(** ** types.ts: the externalised values *)

(** [VdfNodeData] and [VdfNodeJson]: [undefined], a string, a number, or
    an object.  An object is the list of its own properties in insertion
    order; the prototype chain and the order in which JavaScript
    enumerates integer-like keys are not represented. *)
Inductive VdfNodeJson : Type :=
| JsUndefined
| JsNumber (n : Z)
| JsString (s : string)
| JsObject (fields : list (string * VdfNodeJson)).

Definition num_json (v : NumberOrUndefined) : VdfNodeJson :=
  match v with
  | Some n => JsNumber n
  | None => JsUndefined
  end.

Definition VdfGameJson := list (string * VdfNodeJson).

Fixpoint assoc_set (key : string) (v : VdfNodeJson) (fields : VdfGameJson)
  : VdfGameJson :=
  match fields with
  | [] => [(key, v)]
  | (key', v') :: rest =>
      if String.eqb key key' then (key, v) :: rest
      else (key', v') :: assoc_set key v rest
  end.

(** [object[key] = v] on a plain object: an existing own property is
    overwritten in place, a new one is appended; the key [__proto__]
    reaches the prototype setter and creates no own property. *)
Definition obj_set (key : string) (v : VdfNodeJson) (fields : VdfGameJson)
  : VdfGameJson :=
  if String.eqb key "__proto__" then fields else assoc_set key v fields.

(** The own property [key] of an object, if any. *)
Fixpoint obj_get (key : string) (fields : VdfGameJson) : option VdfNodeJson :=
  match fields with
  | [] => None
  | (key', v') :: rest =>
      if String.eqb key key' then Some v' else obj_get key rest
  end.

(** A property key made from [child.name]: an unset name is the string
    [undefined]. *)
Definition property_key (name : option string) : string :=
  match name with
  | Some s => s
  | None => "undefined"
  end.

Record VdfJson : Type := mkVdfJson {
  sign : NumberOrUndefined;
  version : NumberOrUndefined;
  count : Z;
  games : list VdfGameJson
}.

(** ** Array helpers *)

(** [array[i]] for a number [i]: [undefined] out of range. *)
Definition js_index {A : Type} (array : list A) (i : Z) : option A :=
  if i <? 0 then None else nth_error array (Z.to_nat i).

(** [array.push(x)] and [array.pop()] (the popped element is unused). *)
Definition js_push {A : Type} (array : list A) (x : A) : list A := array ++ [x].
Definition js_pop {A : Type} (array : list A) : list A := removelast array.

(** ** Running constructors

    A constructor that recurses on the stream takes a bound [fuel] on the
    depth of its calls; [None] means the bound was reached.  The unread
    bytes survive an exception, as the stream object does. *)
Definition Run (A : Type) : Type := option (Result A * Readable).

Definition bind {A B : Type} (m : Run A) (k : A -> Readable -> Run B) : Run B :=
  match m with
  | None => None
  | Some (Throw e, stream) => Some (Throw e, stream)
  | Some (Ok a, stream) => k a stream
  end.

(** The bound used by the entry points; [VdfNode_decode_total],
    [VdfGame_decode_total] and [Vdf_decode_total] below show that it is
    never reached. *)
Definition fuel_of (stream : Readable) : nat :=
  (2 * List.length stream + 3)%nat.

(** ** The tag enumeration [VdfTypes] *)
Module VdfTypes.
Definition None : Z := 0.
Definition String : Z := 1.
Definition Int : Z := 2.
Definition Float : Z := 3.
Definition Ptr : Z := 4.
Definition Wstring : Z := 5.
Definition Color : Z := 6.
Definition Uint64 : Z := 7.
Definition Numtypes : Z := 8.
Definition Int32 : Z := Int.
Definition Float32 : Z := Float.
Definition Map : Z := None.
Definition End : Z := Numtypes.
End VdfTypes.

(** [a === b] and [a !== b] for a number-or-undefined [a] and a number [b]. *)
Definition strict_eq (a : NumberOrUndefined) (b : Z) : bool :=
  match a with
  | Some z => z =? b
  | None => false
  end.
Definition strict_neq (a : NumberOrUndefined) (b : Z) : bool :=
  negb (strict_eq a b).

(** ** class VdfNode *)
Module VdfNode.

Inductive t : Type := mk {
  _type : NumberOrUndefined;
  _name : option string;
  _value : VdfNodeJson;
  _childrenCount : Z;
  _children : list t
}.

(** Field values of a fresh object: [_childrenCount = 0],
    [_children = []], the rest unset. *)
Definition fresh : t := mk None None JsUndefined 0 [].

Definition set_type (this : t) (v : NumberOrUndefined) : t :=
  mk v (_name this) (_value this) (_childrenCount this) (_children this).
Definition set_name (this : t) (v : option string) : t :=
  mk (_type this) v (_value this) (_childrenCount this) (_children this).
Definition set_value (this : t) (v : VdfNodeJson) : t :=
  mk (_type this) (_name this) v (_childrenCount this) (_children this).
Definition set_childrenCount (this : t) (v : Z) : t :=
  mk (_type this) (_name this) (_value this) v (_children this).
Definition set_children (this : t) (v : list t) : t :=
  mk (_type this) (_name this) (_value this) (_childrenCount this) v.

(** [get value()] *)
Fixpoint value (this : t) : VdfNodeJson :=
  if strict_neq (_type this) 0 then _value this
  else
    JsObject
      (fold_left
         (fun object child => obj_set (property_key (_name child)) (value child) object)
         (_children this) []).

Definition _parseType (this : t) (stream : Readable) : t * Readable :=
  let '(v, stream) := parseNumber stream 8 in
  (set_type this v, stream).

Definition _parseName (this : t) (stream : Readable) : Result t * Readable :=
  match parseString stream with
  | (Ok v, stream) => (Ok (set_name this (Some v)), stream)
  | (Throw e, stream) => (Throw e, stream)
  end.

(** [_parseValue], given the constructor [new] and the [while] loop at
    the current call depth. *)
Definition _parseValue (new : Readable -> Run t)
    (while : t -> Readable -> Run t) (this : t) (stream : Readable) : Run t :=
  if strict_eq (_type this) VdfTypes.Map then
    let this := set_childrenCount this (_childrenCount this + 1) in
    bind (new stream) (fun child stream =>
    let this := set_children this (js_push (_children this) child) in
    bind (while this stream) (fun this stream =>
    let this := set_childrenCount this (_childrenCount this - 1) in
    let this := set_children this (js_pop (_children this)) in
    Some (Ok this, stream)))
  else if strict_eq (_type this) VdfTypes.String then
    match parseString stream with
    | (Ok v, stream) => Some (Ok (set_value this (JsString v)), stream)
    | (Throw e, stream) => Some (Throw e, stream)
    end
  else if strict_eq (_type this) VdfTypes.Int32 then
    let '(v, stream) := parseNumber stream 32 in
    Some (Ok (set_value this (num_json v)), stream)
  else Some (Ok this, stream).

(** The constructor, and the [while] loop of the map case:
    [while (this._children[this._childrenCount - 1]._type !== VdfTypes.End)]. *)
Fixpoint new (fuel : nat) (stream : Readable) {struct fuel} : Run t :=
  match fuel with
  | O => None
  | S fuel' =>
      let '(this, stream) := _parseType fresh stream in
      if strict_neq (_type this) VdfTypes.End then
        match _parseName this stream with
        | (Throw e, stream) => Some (Throw e, stream)
        | (Ok this, stream) =>
            _parseValue (new fuel') (_parseValue_while fuel') this stream
        end
      else Some (Ok this, stream)
  end
with _parseValue_while (fuel : nat) (this : t) (stream : Readable)
    {struct fuel} : Run t :=
  match fuel with
  | O => None
  | S fuel' =>
      match js_index (_children this) (_childrenCount this - 1) with
      | None => Some (Throw TypeError, stream)
      | Some last =>
          if strict_neq (_type last) VdfTypes.End then
            let this := set_childrenCount this (_childrenCount this + 1) in
            bind (new fuel' stream) (fun child stream =>
            let this := set_children this (js_push (_children this) child) in
            _parseValue_while fuel' this stream)
          else Some (Ok this, stream)
      end
  end.

(** [new VdfNode(stream)] *)
Definition decode (stream : Readable) : Run t := new (fuel_of stream) stream.

End VdfNode.

(** The assignments [object[child.name] = child.value] of a [forEach]. *)
Definition assign_children (children : list VdfNode.t) (object : VdfGameJson)
  : VdfGameJson :=
  fold_left
    (fun object child =>
       obj_set (property_key (VdfNode._name child)) (VdfNode.value child) object)
    children object.

(** ** class VdfGame *)
Module VdfGame.

Record t : Type := mk {
  _appId : NumberOrUndefined;
  _dataSize : NumberOrUndefined;
  _infoState : NumberOrUndefined;
  _lastUpdated : NumberOrUndefined;
  _accessToken : NumberOrUndefined;
  _sha : string;
  _changeNumber : NumberOrUndefined;
  _childrenCount : Z;
  _children : list VdfNode.t
}.

Definition set_childrenCount (this : t) (v : Z) : t :=
  mk (_appId this) (_dataSize this) (_infoState this) (_lastUpdated this)
     (_accessToken this) (_sha this) (_changeNumber this) v (_children this).
Definition set_children (this : t) (v : list VdfNode.t) : t :=
  mk (_appId this) (_dataSize this) (_infoState this) (_lastUpdated this)
     (_accessToken this) (_sha this) (_changeNumber this) (_childrenCount this) v.

(** [json()]: the object literal, then one assignment per child. *)
Definition json (this : t) : VdfGameJson :=
  let object :=
    [ ("appId"%string, num_json (_appId this));
      ("dataSize"%string, num_json (_dataSize this));
      ("infoState"%string, num_json (_infoState this));
      ("lastUpdated"%string, num_json (_lastUpdated this));
      ("changeNumber"%string, num_json (_changeNumber this)) ] in
  assign_children (_children this) object.

(** [_parseHeader]: the seven header fields in order; the object has
    [_childrenCount = 0] and [_children = []] from its initialisers. *)
Definition _parseHeader (stream : Readable) : Result t * Readable :=
  let '(appId, stream) := parseNumber stream 32 in
  let '(dataSize, stream) := parseNumber stream 32 in
  let '(infoState, stream) := parseNumber stream 32 in
  let '(lastUpdated, stream) := parseNumber stream 32 in
  let '(accessToken, stream) := parseNumber stream 64 in
  match parseRawBytes stream 160 with
  | (Throw e, stream) => (Throw e, stream)
  | (Ok sha, stream) =>
      let '(changeNumber, stream) := parseNumber stream 32 in
      (Ok (mk appId dataSize infoState lastUpdated accessToken sha
              changeNumber 0 []), stream)
  end.

(** The [while] loop of [_parseBody]:
    [while (this._children[this._childrenCount - 1].type !== VdfTypes.End)]. *)
Fixpoint _parseBody_while (fuel : nat) (this : t) (stream : Readable)
    {struct fuel} : Run t :=
  match fuel with
  | O => None
  | S fuel' =>
      match js_index (_children this) (_childrenCount this - 1) with
      | None => Some (Throw TypeError, stream)
      | Some last =>
          if strict_neq (VdfNode._type last) VdfTypes.End then
            let this := set_childrenCount this (_childrenCount this + 1) in
            bind (VdfNode.new fuel' stream) (fun child stream =>
            let this := set_children this (js_push (_children this) child) in
            _parseBody_while fuel' this stream)
          else Some (Ok this, stream)
      end
  end.

Definition _parseBody (fuel : nat) (this : t) (stream : Readable) : Run t :=
  let this := set_childrenCount this (_childrenCount this + 1) in
  bind (VdfNode.new fuel stream) (fun child stream =>
  let this := set_children this (js_push (_children this) child) in
  bind (_parseBody_while fuel this stream) (fun this stream =>
  let this := set_childrenCount this (_childrenCount this - 1) in
  let this := set_children this (js_pop (_children this)) in
  Some (Ok this, stream))).

(** The constructor. *)
Definition new (fuel : nat) (stream : Readable) : Run t :=
  match _parseHeader stream with
  | (Throw e, stream) => Some (Throw e, stream)
  | (Ok this, stream) => _parseBody fuel this stream
  end.

(** [new VdfGame(stream)] *)
Definition decode (stream : Readable) : Run t := new (fuel_of stream) stream.

End VdfGame.

(** ** class Vdf *)
Module Vdf.

Record t : Type := mk {
  _sign : NumberOrUndefined;
  _version : NumberOrUndefined;
  _childrenCount : Z;
  _children : list VdfGame.t
}.

Definition set_childrenCount (this : t) (v : Z) : t :=
  mk (_sign this) (_version this) v (_children this).
Definition set_children (this : t) (v : list VdfGame.t) : t :=
  mk (_sign this) (_version this) (_childrenCount this) v.

(** [array.includes(x)] for an array of numbers. *)
Definition includes (array : list Z) (x : NumberOrUndefined) : bool :=
  existsb (strict_eq x) array.

(** The template literal [${n}] for an integer. *)
Definition number_toString (v : NumberOrUndefined) : string :=
  match v with
  | Some n => DecimalString.NilZero.string_of_int (Z.to_int n)
  | None => "undefined"
  end.

Section Config.
(** [./config] is not part of the sources at hand: [VdfFileTypes.APPINFO]
    and [VdfVersions] are taken as parameters. *)
Variable APPINFO : Z.
Variable VdfVersions : list Z.

Definition _vdfFileTypes : list Z := [APPINFO].
Definition _vdfVersions : list Z := VdfVersions.

(** [_parseHeader]; the object has [_childrenCount = 0] and
    [_children = []] from its initialisers. *)
Definition _parseHeader (stream : Readable) : Result t * Readable :=
  let '(sign, stream) := parseNumber stream 32 in
  if negb (includes _vdfFileTypes sign) then
    (Throw (Error ("Invalid VDF file type: " ++ number_toString sign)), stream)
  else
    let '(version, stream) := parseNumber stream 32 in
    if negb (includes _vdfVersions version) then
      (Throw (Error "Invalid VDF version"), stream)
    else (Ok (mk sign version 0 []), stream).

(** [_parseBody]: the [while (true)] loop inside [try], and the
    [catch] clause.  The argument of [push] is evaluated first, so a
    constructor that throws leaves the array as it was, with
    [_childrenCount] already incremented. *)
Fixpoint _parseBody (fuel : nat) (this : t) (stream : Readable)
    {struct fuel} : option (t * Readable) :=
  match fuel with
  | O => None
  | S fuel' =>
      let this := set_childrenCount this (_childrenCount this + 1) in
      match VdfGame.new fuel' stream with
      | None => None
      | Some (Ok game, stream) =>
          let this := set_children this (js_push (_children this) game) in
          _parseBody fuel' this stream
      | Some (Throw err, stream) =>
          let this := set_childrenCount this (_childrenCount this - 1) in
          let this := set_children this (js_pop (_children this)) in
          Some (this, stream)
      end
  end.

(** The constructor; [_createStreamFromBuffer(buffer)] is the stream
    whose unread bytes are [buffer]. *)
Definition new (fuel : nat) (buffer : Buffer) : Run t :=
  let stream : Readable := buffer in
  match _parseHeader stream with
  | (Throw e, stream) => Some (Throw e, stream)
  | (Ok this, stream) =>
      match _parseBody fuel this stream with
      | None => None
      | Some (this, stream) => Some (Ok this, stream)
      end
  end.

(** [new Vdf(buffer)] *)
Definition decode (buffer : Buffer) : Run t := new (fuel_of buffer) buffer.

End Config.

(** [jsonSync()] *)
Definition jsonSync (this : t) : VdfJson :=
  mkVdfJson (_sign this) (_version this) (_childrenCount this)
    (map VdfGame.json (_children this)).

End Vdf.

(** ** The byte layout of the input

    Well-formed input: the reference reading of fixed-width fields, the
    bytes of a node tree and the bytes of an entry. *)

(** The unsigned little-endian value of a byte sequence. *)
Fixpoint uint_le (bytes : list byte) : Z :=
  match bytes with
  | [] => 0
  | b :: rest => byte_to_Z b + 256 * uint_le rest
  end.

(** Four bytes read as a little-endian two's-complement 32-bit integer. *)
Definition int32_le (b0 b1 b2 b3 : byte) : Z := wrap32 (uint_le [b0; b1; b2; b3]).

(** A name or string value followed by its terminating NUL. *)
Definition cstring (s : string) : list byte := list_byte_of_string s ++ [x00].

(** No character of [s] is NUL. *)
Definition no_nul (s : string) : bool :=
  forallb (fun b => negb (Byte.eqb b x00)) (list_byte_of_string s).

(** The rendering of a byte sequence by repeated [toString(16)]. *)
Fixpoint raw_hex (bs : list byte) : string :=
  match bs with
  | [] => EmptyString
  | b :: rest => (toString16 (byte_to_Z b) ++ raw_hex rest)%string
  end.

(** A node as it is laid out in the input: a map with its children, a
    string, an int32 given by its four bytes, or a node with one of the
    tags that carry no value for this decoder. *)
Inductive NodeTree : Type :=
| TMap (name : string) (children : list NodeTree)
| TString (name : string) (v : string)
| TInt32 (name : string) (b0 b1 b2 b3 : byte)
| TOther (tag : byte) (name : string).

Definition tree_name (t : NodeTree) : string :=
  match t with
  | TMap name _ | TString name _ | TInt32 name _ _ _ _ | TOther _ name => name
  end.

(** A tag that is neither map, string, int32 nor the terminator. *)
Definition unhandled_tag (tag : byte) : bool :=
  negb (byte_to_Z tag =? VdfTypes.Map) && negb (byte_to_Z tag =? VdfTypes.String)
  && negb (byte_to_Z tag =? VdfTypes.Int32) && negb (byte_to_Z tag =? VdfTypes.End).

(** Names and string values contain no NUL, at every depth. *)
Fixpoint well_formed (t : NodeTree) : bool :=
  match t with
  | TMap name children => no_nul name && forallb well_formed children
  | TString name v => no_nul name && no_nul v
  | TInt32 name _ _ _ _ => no_nul name
  | TOther tag name => unhandled_tag tag && no_nul name
  end.

(** The bytes of a node: tag, NUL-terminated name, value; a map's value
    is its children followed by the terminator tag 8. *)
Fixpoint node_bytes (t : NodeTree) : list byte :=
  match t with
  | TMap name children =>
      x00 :: cstring name ++ flat_map node_bytes children ++ [x08]
  | TString name v => x01 :: cstring name ++ cstring v
  | TInt32 name b0 b1 b2 b3 => x02 :: cstring name ++ [b0; b1; b2; b3]
  | TOther tag name => tag :: cstring name
  end.

(** The object the constructor is expected to build for a node. *)
Fixpoint decoded (t : NodeTree) : VdfNode.t :=
  match t with
  | TMap name children =>
      VdfNode.mk (Some VdfTypes.Map) (Some name) JsUndefined
        (Z.of_nat (List.length children)) (map decoded children)
  | TString name v =>
      VdfNode.mk (Some VdfTypes.String) (Some name) (JsString v) 0 []
  | TInt32 name b0 b1 b2 b3 =>
      VdfNode.mk (Some VdfTypes.Int32) (Some name) (JsNumber (int32_le b0 b1 b2 b3)) 0 []
  | TOther tag name =>
      VdfNode.mk (Some (byte_to_Z tag)) (Some name) JsUndefined 0 []
  end.

(** The object built for a terminator: only its tag is set. *)
Definition terminator : VdfNode.t :=
  VdfNode.mk (Some VdfTypes.End) None JsUndefined 0 [].

(** The state of a map node inside its loop: the count is the length of
    the array and the last child is not the terminator. *)
Definition loop_state (this : VdfNode.t) : Prop :=
  VdfNode._childrenCount this = Z.of_nat (List.length (VdfNode._children this))
  /\ exists pre last, VdfNode._children this = pre ++ [last]
       /\ strict_neq (VdfNode._type last) VdfTypes.End = true.

(** The bytes of an entry as the constructor of [VdfGame] reads them: the
    48 bytes of the seven header fields, the root-level nodes, and the
    terminator tag that ends them. *)
Definition entry_bytes (header : list byte) (roots : list NodeTree) : list byte :=
  header ++ flat_map node_bytes roots ++ [x08].

(** The state of an entry inside the loop of its [_parseBody]. *)
Definition game_loop_state (this : VdfGame.t) : Prop :=
  VdfGame._childrenCount this = Z.of_nat (List.length (VdfGame._children this))
  /\ exists pre last, VdfGame._children this = pre ++ [last]
       /\ strict_neq (VdfNode._type last) VdfTypes.End = true.

(** No byte of [bs] is zero. *)
Definition no_zero_byte (bs : list byte) : bool :=
  forallb (fun b => negb (Byte.eqb b x00)) bs.

(** A byte that [toString(16)] renders with two digits. *)
Definition two_digits (b : byte) : bool := 16 <=? byte_to_Z b.

(** [s'] is what remains of [s] after some bytes were consumed. *)
Definition is_suffix (s' s : Readable) : Prop := exists consumed, s = consumed ++ s'.

(** The JSON of a node tree: an object for a map, built by assigning the
    children in order, and the scalar of a leaf. *)
Fixpoint tree_json (t : NodeTree) : VdfNodeJson :=
  match t with
  | TMap _ children =>
      JsObject
        (fold_left
           (fun object child => obj_set (tree_name child) (tree_json child) object)
           children [])
  | TString _ v => JsString v
  | TInt32 _ b0 b1 b2 b3 => JsNumber (int32_le b0 b1 b2 b3)
  | TOther _ _ => JsUndefined
  end.

(** The last child whose property key is [key], if any. *)
Definition last_named (key : string) (children : list VdfNode.t)
  : option VdfNode.t :=
  find (fun child => String.eqb key (property_key (VdfNode._name child)))
       (rev children).

(** A node whose count is the length of its array of children, whose
    children do not carry the terminator tag, and whose children are such
    nodes in turn. *)
Fixpoint node_ok (n : VdfNode.t) : bool :=
  (VdfNode._childrenCount n =? Z.of_nat (List.length (VdfNode._children n)))
  && forallb
       (fun child => strict_neq (VdfNode._type child) VdfTypes.End && node_ok child)
       (VdfNode._children n).

Definition children_ok (children : list VdfNode.t) : bool :=
  forallb (fun child => strict_neq (VdfNode._type child) VdfTypes.End && node_ok child)
          children.

(** The count and the array of a map or an entry inside its loop: the
    count is the length of the array, every child but the last is a
    consistent node that is not a terminator, the last is a consistent
    node. *)
Definition loop_ok (count : Z) (children : list VdfNode.t) : Prop :=
  count = Z.of_nat (List.length children)
  /\ exists pre last, children = pre ++ [last]
       /\ children_ok pre = true /\ node_ok last = true.

(** The 32-bit reading of the four header bytes at offset [i]. *)
Definition header_int32 (header : list byte) (i : nat) : Z :=
  int32_le (nth i header x00) (nth (i + 1) header x00)
           (nth (i + 2) header x00) (nth (i + 3) header x00).

(** The object the constructor of [VdfGame] is expected to build from 48
    header bytes and root-level nodes. *)
Definition decoded_entry (header : list byte) (roots : list NodeTree) : VdfGame.t :=
  VdfGame.mk
    (Some (header_int32 header 0))
    (Some (header_int32 header 4))
    (Some (header_int32 header 8))
    (Some (header_int32 header 12))
    (Some (Z.lor (header_int32 header 16) (header_int32 header 20)))
    (raw_hex (firstn 20 (skipn 24 header)))
    (Some (header_int32 header 44))
    (Z.of_nat (List.length roots))
    (map decoded roots).

(** ** Properties of the bitwise operators *)

Lemma wrap32_small (z : Z) : -2147483648 <= z < 2147483648 -> wrap32 z = z.
Proof.
  intros H. unfold wrap32. rewrite Z.mod_small; lia.
Qed.

Lemma wrap32_range (z : Z) : -2147483648 <= wrap32 z < 2147483648.
Proof.
  unfold wrap32.
  pose proof (Z.mod_pos_bound (z + 2147483648) 4294967296 ltac:(lia)). lia.
Qed.

Lemma wrap32_add_multiple (z k : Z) : wrap32 (z + k * 4294967296) = wrap32 z.
Proof.
  unfold wrap32.
  replace (z + k * 4294967296 + 2147483648) with (z + 2147483648 + k * 4294967296) by lia.
  now rewrite Z.mod_add by lia.
Qed.

Lemma byte_to_Z_range (b : byte) : 0 <= byte_to_Z b < 256.
Proof.
  unfold byte_to_Z. pose proof (Byte.to_N_bounded b). lia.
Qed.

(** A value below [2^n] and a multiple of [2^n] have no bit in common,
    so their bitwise or is their sum, whatever the sign of the multiple. *)
Lemma lor_disjoint (a k n : Z) :
  0 <= n -> 0 <= a < 2 ^ n -> Z.lor a (k * 2 ^ n) = a + k * 2 ^ n.
Proof.
  intros Hn Ha.
  assert (Hland : Z.land a (k * 2 ^ n) = 0).
  { apply Z.bits_inj'. intros i Hi.
    rewrite Z.land_spec, Z.bits_0.
    destruct (Z.lt_ge_cases i n) as [Hlt | Hge].
    - rewrite <- Z.shiftl_mul_pow2 by assumption.
      rewrite Z.shiftl_spec_low by assumption. apply andb_false_r.
    - destruct (Z.eq_dec a 0) as [-> | Hnz].
      + now rewrite Z.bits_0.
      + rewrite (Z.bits_above_log2 a i); [reflexivity | lia |].
        apply Z.log2_lt_pow2; [lia |].
        apply Z.lt_le_trans with (2 ^ n); [lia |].
        apply Z.pow_le_mono_r; lia. }
  rewrite <- (Z.lxor_lor _ _ Hland). symmetry. now apply Z.add_nocarry_lxor.
Qed.

Lemma js_shl_byte (x k : Z) :
  0 <= x < 256 -> 0 <= k < 32 ->
  js_shl (Some x) k = wrap32 (x * 2 ^ k).
Proof.
  intros Hx Hk. unfold js_shl, ToInt32.
  rewrite (wrap32_small x) by lia.
  rewrite Z.mod_small by lia.
  now rewrite Z.shiftl_mul_pow2 by lia.
Qed.

Lemma js_or_small (a b : Z) :
  -2147483648 <= a < 2147483648 -> -2147483648 <= b < 2147483648 ->
  js_or (Some a) (Some b) = wrap32 (Z.lor a b).
Proof.
  intros Ha Hb. unfold js_or, ToInt32.
  rewrite (wrap32_small a) by lia. rewrite (wrap32_small b) by lia. reflexivity.
Qed.

(** ** Properties of [helper.ts] *)

Lemma Readable_read_nonempty (stream : Readable) (n : nat) (b : Buffer) (s' : Readable) :
  Readable_read stream n = (Some b, s') -> b <> [].
Proof.
  destruct n as [| n], stream as [| x stream]; simpl; try discriminate.
  intros H. injection H as <- _. discriminate.
Qed.

Lemma Readable_read_rest (stream : Readable) (n : nat) :
  snd (Readable_read stream n) = skipn n stream.
Proof.
  destruct n as [| n], stream as [| x stream]; reflexivity.
Qed.

Lemma parseNumber_rest (stream : Readable) (length : nat) :
  snd (parseNumber stream length) = skipn (Nat.div length 8) stream.
Proof.
  unfold parseNumber.
  pose proof (Readable_read_rest stream (Nat.div length 8)) as H.
  destruct (Readable_read stream (Nat.div length 8)) as [r s']. exact H.
Qed.

Lemma parseNumber_loop_defined (buffer : Buffer) (iters i : nat) (number : NumberOrUndefined) :
  number <> None -> parseNumber_loop buffer i iters number <> None.
Proof.
  revert i number. induction iters as [| iters IH]; intros i number H; simpl.
  - exact H.
  - apply IH. discriminate.
Qed.

(** [parseNumber] never yields [undefined]: the buffer it indexes is
    never empty. *)
Lemma parseNumber_defined (stream : Readable) (length : nat) :
  exists n, fst (parseNumber stream length) = Some n.
Proof.
  unfold parseNumber.
  destruct (Readable_read stream (Nat.div length 8)) as [r s'] eqn:Hr.
  set (buffer := match r with Some b => b | None => [x00] end).
  assert (Hb : Buffer_get buffer 0 <> None).
  { subst buffer. destruct r as [b |]; [| discriminate].
    apply Readable_read_nonempty in Hr. destruct b; [contradiction | discriminate]. }
  cbn [fst].
  pose proof (parseNumber_loop_defined buffer (Nat.div length 8 - 1) 1 _ Hb) as Hd.
  destruct (parseNumber_loop buffer 1 (Nat.div length 8 - 1) (Buffer_get buffer 0)) as [n |].
  - now exists n.
  - contradiction.
Qed.

(** An 8-bit read returns the next byte, unsigned. *)
Lemma parseNumber_8 (b : byte) (rest : Readable) :
  parseNumber (b :: rest) 8 = (Some (byte_to_Z b), rest).
Proof. reflexivity. Qed.

(** A 32-bit read with four bytes available returns their little-endian
    composition as a signed 32-bit integer. *)
Lemma parseNumber_32 (b0 b1 b2 b3 : byte) (rest : Readable) :
  parseNumber (b0 :: b1 :: b2 :: b3 :: rest) 32 = (Some (int32_le b0 b1 b2 b3), rest).
Proof.
  unfold parseNumber, int32_le.
  change (Nat.div 32 8) with 4%nat. cbn [Readable_read firstn skipn Nat.sub].
  cbn [parseNumber_loop Buffer_get nth_error option_map uint_le].
  pose proof (byte_to_Z_range b0) as H0. pose proof (byte_to_Z_range b1) as H1.
  pose proof (byte_to_Z_range b2) as H2. pose proof (byte_to_Z_range b3) as H3.
  set (x0 := byte_to_Z b0) in *. set (x1 := byte_to_Z b1) in *.
  set (x2 := byte_to_Z b2) in *. set (x3 := byte_to_Z b3) in *.
  change (Z.of_nat 1 * 8) with 8. change (Z.of_nat 2 * 8) with 16.
  change (Z.of_nat 3 * 8) with 24.
  rewrite !js_shl_byte by lia.
  rewrite (wrap32_small (x1 * 2 ^ 8)) by lia.
  rewrite (js_or_small x0 (x1 * 2 ^ 8)) by lia.
  rewrite (lor_disjoint x0 x1 8) by lia.
  rewrite (wrap32_small (x0 + x1 * 2 ^ 8)) by lia.
  rewrite (wrap32_small (x2 * 2 ^ 16)) by lia.
  rewrite (js_or_small (x0 + x1 * 2 ^ 8) (x2 * 2 ^ 16)) by lia.
  rewrite (lor_disjoint (x0 + x1 * 2 ^ 8) x2 16) by lia.
  rewrite (wrap32_small (x0 + x1 * 2 ^ 8 + x2 * 2 ^ 16)) by lia.
  rewrite js_or_small by (try apply wrap32_range; lia).
  assert (Hw : exists k, (k = x3 \/ k = x3 - 256) /\ wrap32 (x3 * 2 ^ 24) = k * 2 ^ 24).
  { destruct (Z.lt_ge_cases x3 128).
    - exists x3. split; [now left |]. apply wrap32_small. lia.
    - exists (x3 - 256). split; [now right |].
      replace (x3 * 2 ^ 24) with ((x3 - 256) * 2 ^ 24 + 1 * 4294967296) by lia.
      rewrite wrap32_add_multiple. apply wrap32_small. lia. }
  destruct Hw as (k & Hk & ->).
  rewrite lor_disjoint by lia.
  do 2 f_equal.
  destruct Hk as [-> | ->].
  - f_equal. lia.
  - replace (x0 + 256 * (x1 + 256 * (x2 + 256 * (x3 + 256 * 0))))
      with (x0 + x1 * 2 ^ 8 + x2 * 2 ^ 16 + (x3 - 256) * 2 ^ 24 + 1 * 4294967296) by lia.
    now rewrite wrap32_add_multiple.
Qed.

Lemma append_nil_r (s : string) : (s ++ EmptyString)%string = s.
Proof. induction s as [| a s IH]; simpl; [reflexivity | now rewrite IH]. Qed.

Lemma append_assoc (s1 s2 s3 : string) :
  ((s1 ++ s2) ++ s3)%string = (s1 ++ (s2 ++ s3))%string.
Proof. induction s1 as [| a s1 IH]; simpl; [reflexivity | now rewrite IH]. Qed.

(** The recursion of [parseString_loop] is the loop of the source: one
    [stream.read(1)] per iteration, [null[0]] throwing, [code == 0]
    ending the loop. *)
Lemma parseString_loop_unfold (stream : Readable) (str : string) :
  parseString_loop stream str =
  match Readable_read stream 1 with
  | (None, stream') => (Throw TypeError, stream')
  | (Some buffer, stream') =>
      match nth_error buffer 0 with
      | Some code =>
          if byte_to_Z code =? 0 then (Ok str, stream')
          else parseString_loop stream' (str ++ fromCharCode code)%string
      | None => (Throw TypeError, stream')
      end
  end.
Proof.
  destruct stream as [| code stream]; [reflexivity |].
  cbn [Readable_read firstn skipn nth_error parseString_loop].
  destruct code; reflexivity.
Qed.

Lemma no_nul_cons (a : ascii) (s : string) :
  no_nul (String a s) = true ->
  Byte.eqb (byte_of_ascii a) x00 = false /\ no_nul s = true.
Proof.
  unfold no_nul. cbn [list_byte_of_string forallb].
  intros H. apply andb_true_iff in H as [H1 H2].
  split; [now apply negb_true_iff in H1 | exact H2].
Qed.

(** Reading back a NUL-terminated string: the characters before the NUL
    are appended, the NUL is consumed, the rest is left unread. *)
Lemma parseString_loop_cstring (s : string) (rest : Readable) (str : string) :
  no_nul s = true ->
  parseString_loop (cstring s ++ rest) str = (Ok (str ++ s)%string, rest).
Proof.
  revert str. induction s as [| a s IH]; intros str H.
  - simpl. now rewrite append_nil_r.
  - apply no_nul_cons in H as [Ha Hs].
    unfold cstring, list_byte_of_string in *.
    cbn [list_ascii_of_string map app parseString_loop].
    rewrite Ha. rewrite IH by assumption.
    unfold fromCharCode. rewrite ascii_of_byte_of_ascii.
    now rewrite append_assoc.
Qed.

Lemma parseString_cstring (s : string) (rest : Readable) :
  no_nul s = true -> parseString (cstring s ++ rest) = (Ok s, rest).
Proof.
  intros H. unfold parseString. now rewrite parseString_loop_cstring.
Qed.

(** A successful [parseString] consumes at least the terminating NUL. *)
Lemma parseString_loop_consumes (stream : Readable) (str v : string) (stream' : Readable) :
  parseString_loop stream str = (Ok v, stream') ->
  (List.length stream' < List.length stream)%nat.
Proof.
  revert str. induction stream as [| code stream IH]; intros str; simpl.
  - discriminate.
  - destruct (Byte.eqb code x00).
    + intros H. injection H as _ <-. lia.
    + intros H. apply IH in H. lia.
Qed.

Lemma parseRawBytes_loop_all (pre bs : list byte) (str : string) :
  parseRawBytes_loop (pre ++ bs) (List.length pre) (List.length bs) str
  = Ok (str ++ raw_hex bs)%string.
Proof.
  revert pre str. induction bs as [| b bs IH]; intros pre str.
  - simpl. now rewrite append_nil_r.
  - cbn [List.length parseRawBytes_loop raw_hex].
    unfold Buffer_get. rewrite nth_error_app2 by lia.
    rewrite Nat.sub_diag. cbn [nth_error option_map].
    replace (pre ++ b :: bs) with ((pre ++ [b]) ++ bs) by now rewrite <- app_assoc.
    replace (S (List.length pre)) with (List.length (pre ++ [b]))
      by (rewrite length_app; simpl; lia).
    rewrite IH. now rewrite append_assoc.
Qed.

(** A read of exactly the bytes at the head of the stream. *)
Lemma Readable_read_exact (bs : list byte) (rest : Readable) :
  bs <> [] -> Readable_read (bs ++ rest) (List.length bs) = (Some bs, rest).
Proof.
  destruct bs as [| b bs]; [contradiction | intros _].
  simpl. rewrite firstn_app, skipn_app, Nat.sub_diag, firstn_all, skipn_all.
  simpl. now rewrite app_nil_r.
Qed.

(** With all its bytes available, [parseRawBytes] renders them in buffer
    order with [toString(16)], which gives a byte below 16 one digit. *)
Lemma parseRawBytes_complete (bs : list byte) (rest : Readable) :
  bs <> [] ->
  parseRawBytes (bs ++ rest) (8 * List.length bs) = (Ok (raw_hex bs), rest).
Proof.
  intros Hne. unfold parseRawBytes.
  rewrite Nat.mul_comm, Nat.div_mul by discriminate.
  rewrite Readable_read_exact by assumption.
  f_equal. exact (parseRawBytes_loop_all [] bs EmptyString).
Qed.

(** Past the end of its buffer the loop of [parseRawBytes] throws. *)
Lemma parseRawBytes_loop_short (buffer : Buffer) (iters i : nat) (str : string) :
  (i <= List.length buffer < i + iters)%nat ->
  parseRawBytes_loop buffer i iters str = Throw TypeError.
Proof.
  revert i str. induction iters as [| iters IH]; intros i str H; [lia |].
  cbn [parseRawBytes_loop]. unfold Buffer_get.
  destruct (nth_error buffer i) as [b |] eqn:Hb; cbn [option_map]; [| reflexivity].
  apply IH.
  assert (i < List.length buffer)%nat by (apply nth_error_Some; congruence). lia.
Qed.

Lemma ToInt32_Buffer_get_pad (s : list byte) (k j : nat) :
  ToInt32 (Buffer_get (s ++ repeat x00 k) j) = ToInt32 (Buffer_get s j).
Proof.
  unfold Buffer_get.
  destruct (Nat.lt_ge_cases j (List.length s)) as [Hlt | Hge].
  - now rewrite nth_error_app1.
  - rewrite nth_error_app2 by assumption.
    replace (nth_error s j) with (@None byte) by (symmetry; now apply nth_error_None).
    destruct (nth_error (repeat x00 k) (j - List.length s)) as [b |] eqn:Hb; [| reflexivity].
    apply nth_error_In, repeat_spec in Hb. subst b. reflexivity.
Qed.

Lemma parseNumber_loop_ext (b b' : Buffer) (iters i : nat) (number : NumberOrUndefined) :
  (forall j, ToInt32 (Buffer_get b j) = ToInt32 (Buffer_get b' j)) ->
  parseNumber_loop b i iters number = parseNumber_loop b' i iters number.
Proof.
  intros H. revert i number. induction iters as [| iters IH]; intros i number; simpl.
  - reflexivity.
  - unfold js_shl. rewrite H. apply IH.
Qed.

(** On the substituted buffer [[0]] every iteration leaves 0. *)
Lemma parseNumber_loop_zero (iters i : nat) :
  parseNumber_loop [x00] i iters (Some 0) = Some 0.
Proof.
  revert i. induction iters as [| iters IH]; intros i; [reflexivity |].
  cbn [parseNumber_loop].
  replace (js_or (Some 0) (Some (js_shl (Buffer_get [x00] i) (Z.of_nat i * 8))))
    with 0; [apply IH |].
  unfold js_shl.
  replace (ToInt32 (Buffer_get [x00] i)) with 0
    by (destruct i as [| [| i]]; reflexivity).
  now rewrite Z.shiftl_0_l.
Qed.

(** ** C3: short reads *)

(** C3, counterexample: with two unread bytes, and with none, a 32-bit
    [parseNumber] does not fail; it returns 0. *)
Lemma parseNumber_truncated_reads_zero :
  (List.length [x00; x00] < 4)%nat
  /\ parseNumber [x00; x00] 32 = (Some 0, [])
  /\ parseNumber [] 32 = (Some 0, []).
Proof. repeat split. simpl. lia. Qed.

(** C3, as the code has it: when fewer unread bytes remain than the
    width requires, [parseNumber] does not fail.  It consumes what is
    left and returns a number, the one it would return were the missing
    bytes zero (0 when nothing is left, through the substituted one-byte
    buffer).  [parseRawBytes] does fail for a width of two bytes or more,
    with the [TypeError] of calling [toString] on the first missing byte. *)
Theorem short_read_behaviour (stream : Readable) (bytes : nat) :
  (List.length stream < bytes)%nat ->
  (exists n, parseNumber stream (8 * bytes) = (Some n, []))
  /\ fst (parseNumber stream (8 * bytes))
     = fst (parseNumber (stream ++ repeat x00 (bytes - List.length stream)) (8 * bytes))
  /\ (stream = [] -> parseNumber stream (8 * bytes) = (Some 0, []))
  /\ ((2 <= bytes)%nat -> parseRawBytes stream (8 * bytes) = (Throw TypeError, [])).
Proof.
  intros Hshort.
  assert (Hrest : snd (parseNumber stream (8 * bytes)) = []).
  { rewrite parseNumber_rest, Nat.mul_comm, Nat.div_mul by discriminate.
    apply skipn_all2. lia. }
  assert (Hpad : fst (parseNumber stream (8 * bytes))
     = fst (parseNumber (stream ++ repeat x00 (bytes - List.length stream)) (8 * bytes))).
  { unfold parseNumber. rewrite Nat.mul_comm, Nat.div_mul by discriminate.
    destruct bytes as [| bytes]; [lia |].
    destruct stream as [| b stream].
    - cbn [Readable_read app List.length Nat.sub repeat fst].
      rewrite firstn_all2 by (cbn [List.length]; rewrite repeat_length; lia).
      cbn [Buffer_get nth_error option_map].
      apply (parseNumber_loop_ext [x00] (x00 :: repeat x00 bytes)).
      intros j. transitivity (ToInt32 (Buffer_get [] j)).
      + exact (ToInt32_Buffer_get_pad [] 1 j).
      + symmetry. exact (ToInt32_Buffer_get_pad [] (S bytes) j).
    - cbn [Readable_read app fst].
      rewrite firstn_all2 by (cbn [List.length] in *; lia).
      change (b :: stream ++ repeat x00 (S bytes - List.length (b :: stream)))
        with ((b :: stream) ++ repeat x00 (S bytes - List.length (b :: stream))).
      rewrite firstn_all2
        by (rewrite length_app, repeat_length; cbn [List.length] in *; lia).
      cbn [Buffer_get nth_error option_map app].
      apply parseNumber_loop_ext. intros j. symmetry.
      exact (ToInt32_Buffer_get_pad (b :: stream) _ j). }
  repeat split.
  - destruct (parseNumber_defined stream (8 * bytes)) as [n Hn].
    exists n. destruct (parseNumber stream (8 * bytes)) as [v s'].
    cbn [fst snd] in *. now rewrite Hn, Hrest.
  - exact Hpad.
  - intros ->. unfold parseNumber. rewrite Nat.mul_comm, Nat.div_mul by discriminate.
    destruct bytes as [| bytes]; [reflexivity |].
    cbn [Readable_read Buffer_get nth_error option_map Nat.sub]. f_equal.
    apply parseNumber_loop_zero.
  - intros H2. unfold parseRawBytes. rewrite Nat.mul_comm, Nat.div_mul by discriminate.
    destruct bytes as [| bytes]; [lia |].
    destruct stream as [| b stream].
    + cbn [Readable_read]. f_equal.
      cbn [parseRawBytes_loop Buffer_get nth_error option_map].
      apply parseRawBytes_loop_short. simpl. lia.
    + cbn [Readable_read].
      rewrite firstn_all2, skipn_all2 by (cbn [List.length] in *; lia).
      f_equal. apply parseRawBytes_loop_short. cbn [List.length] in *. lia.
Qed.

Lemma short_read_behaviour_witness :
  (List.length [x34; x12] < 4)%nat
  /\ parseNumber [x34; x12] 32 = (Some 4660, [])
  /\ parseRawBytes [x34; x12] 32 = (Throw TypeError, []).
Proof.
  split; [simpl; lia |].
  destruct (short_read_behaviour [x34; x12] 4) as (_ & _ & _ & H4); [simpl; lia |].
  split; [reflexivity | apply H4; lia].
Defined.

(** ** C4: digest rendering *)

(** C4, on the code: a digest whose bytes begin 0x00 0x1A 0xFF is
    rendered with a single digit for 0x00, so the string begins [01aff]
    and has 39 characters, not 40. *)
Theorem parseRawBytes_digest_not_padded :
  parseRawBytes
    [x00; x1a; xff; x2b; x2b; x2b; x2b; x2b; x2b; x2b;
     x2b; x2b; x2b; x2b; x2b; x2b; x2b; x2b; x2b; x2b] 160
  = (Ok "01aff2b2b2b2b2b2b2b2b2b2b2b2b2b2b2b2b2b"%string, [])
  /\ String.length "01aff2b2b2b2b2b2b2b2b2b2b2b2b2b2b2b2b2b" = 39%nat.
Proof. split; reflexivity. Qed.

(** ** C5: fixed-width integers *)

(** C5, on the code: a 64-bit read whose fifth byte is 1 returns 1, where
    the unsigned little-endian value of the eight bytes is 2^32 (the
    shift count [i * 8] is taken modulo 32, so bytes 4 to 7 are or-ed
    onto bytes 0 to 3); and a 32-bit read whose top bit is set returns a
    negative number. *)
Theorem parseNumber_64_folds_upper_bytes :
  parseNumber [x00; x00; x00; x00; x01; x00; x00; x00] 64 = (Some 1, [])
  /\ uint_le [x00; x00; x00; x00; x01; x00; x00; x00] = 4294967296
  /\ parseNumber [x00; x00; x00; x80] 32 = (Some (-2147483648), [])
  /\ uint_le [x00; x00; x00; x80] = 2147483648.
Proof. repeat split. Qed.

(** ** The constructor of [VdfNode]: unfolding, fuel and progress *)

Lemma bind_Some {A B : Type} (m : Run A) (k : A -> Readable -> Run B) (r : Result B * Readable) :
  bind m k = Some r ->
  (exists e s, m = Some (Throw e, s) /\ r = (Throw e, s))
  \/ (exists a s, m = Some (Ok a, s) /\ k a s = Some r).
Proof.
  destruct m as [[[a | e] s] |]; simpl; intros H.
  - right. now exists a, s.
  - left. exists e, s. split; congruence.
  - discriminate.
Qed.

Lemma VdfNode_new_nil (fuel : nat) :
  VdfNode.new (S fuel) [] = Some (Throw TypeError, []).
Proof. reflexivity. Qed.

Lemma VdfNode_new_cons (fuel : nat) (b : byte) (rest : Readable) :
  VdfNode.new (S fuel) (b :: rest) =
  if strict_neq (Some (byte_to_Z b)) VdfTypes.End then
    match parseString rest with
    | (Throw e, stream) => Some (Throw e, stream)
    | (Ok name, stream) =>
        VdfNode._parseValue (VdfNode.new fuel) (VdfNode._parseValue_while fuel)
          (VdfNode.mk (Some (byte_to_Z b)) (Some name) JsUndefined 0 []) stream
    end
  else Some (Ok (VdfNode.mk (Some (byte_to_Z b)) None JsUndefined 0 []), rest).
Proof.
  cbn [VdfNode.new]. unfold VdfNode._parseType. rewrite parseNumber_8.
  unfold VdfNode._parseName, VdfNode.set_type, VdfNode.set_name. cbn.
  destruct (strict_neq (Some (byte_to_Z b)) VdfTypes.End); [| reflexivity].
  destruct (parseString rest) as [[name | e] stream]; reflexivity.
Qed.

Section ParseValue.
(** [_parseValue] over an arbitrary constructor and loop. *)
Variables (nw nw' : Readable -> Run VdfNode.t).
Variables (wh wh' : VdfNode.t -> Readable -> Run VdfNode.t).

Lemma _parseValue_mono (this : VdfNode.t) (s : Readable) (r : Result VdfNode.t * Readable) :
  (forall s0 r0, nw s0 = Some r0 -> nw' s0 = Some r0) ->
  (forall t0 s0 r0, wh t0 s0 = Some r0 -> wh' t0 s0 = Some r0) ->
  VdfNode._parseValue nw wh this s = Some r ->
  VdfNode._parseValue nw' wh' this s = Some r.
Proof.
  intros Hn Hw. unfold VdfNode._parseValue.
  destruct (strict_eq (VdfNode._type this) VdfTypes.Map); [| trivial].
  intros H. apply bind_Some in H as [(e & s1 & H1 & ->) | (child & s1 & H1 & H)].
  - now rewrite (Hn _ _ H1).
  - rewrite (Hn _ _ H1). cbn [bind].
    apply bind_Some in H as [(e & s2 & H2 & ->) | (this2 & s2 & H2 & H)].
    + now rewrite (Hw _ _ _ H2).
    + rewrite (Hw _ _ _ H2). exact H.
Qed.

Lemma _parseValue_consumes (this this' : VdfNode.t) (s s' : Readable) :
  (forall s0 n0 s1, nw s0 = Some (Ok n0, s1) -> (List.length s1 < List.length s0)%nat) ->
  (forall t0 s0 n0 s1, wh t0 s0 = Some (Ok n0, s1) -> (List.length s1 <= List.length s0)%nat) ->
  VdfNode._parseValue nw wh this s = Some (Ok this', s') ->
  (List.length s' <= List.length s)%nat.
Proof.
  intros Hn Hw. unfold VdfNode._parseValue.
  destruct (strict_eq (VdfNode._type this) VdfTypes.Map).
  - intros H. apply bind_Some in H as [(e & s1 & H1 & [=]) | (child & s1 & H1 & H)].
    apply bind_Some in H as [(e & s2 & H2 & [=]) | (this2 & s2 & H2 & H)].
    injection H as _ <-. apply Hn in H1. apply Hw in H2. lia.
  - destruct (strict_eq (VdfNode._type this) VdfTypes.String).
    + destruct (parseString s) as [[v | e] s1] eqn:Hs; [| discriminate].
      intros H. injection H as _ <-.
      apply parseString_loop_consumes in Hs. lia.
    + destruct (strict_eq (VdfNode._type this) VdfTypes.Int32).
      * pose proof (parseNumber_rest s 32) as Hr.
        destruct (parseNumber s 32) as [v s1]. cbn [snd] in Hr.
        intros H. injection H as _ <-. subst s1.
        rewrite length_skipn. lia.
      * intros H. injection H as _ <-. lia.
Qed.

Lemma _parseValue_enough (this : VdfNode.t) (s : Readable) :
  (forall s0, (List.length s0 <= List.length s)%nat -> nw s0 <> None) ->
  (forall t0 s0, (List.length s0 < List.length s)%nat -> wh t0 s0 <> None) ->
  (forall s0 n0 s1, nw s0 = Some (Ok n0, s1) -> (List.length s1 < List.length s0)%nat) ->
  VdfNode._parseValue nw wh this s <> None.
Proof.
  intros Hn Hw Hc. unfold VdfNode._parseValue.
  destruct (strict_eq (VdfNode._type this) VdfTypes.Map).
  - destruct (nw s) as [[[child | e] s1] |] eqn:H1; cbn [bind].
    + apply Hc in H1.
      destruct (wh _ s1) as [[[this2 | e] s2] |] eqn:H2; cbn [bind]; try discriminate.
      now apply Hw in H2.
    + discriminate.
    + now apply Hn in H1.
  - destruct (strict_eq (VdfNode._type this) VdfTypes.String).
    + destruct (parseString s) as [[v | e] s1]; discriminate.
    + destruct (strict_eq (VdfNode._type this) VdfTypes.Int32).
      * destruct (parseNumber s 32) as [v s1]. discriminate.
      * discriminate.
Qed.
End ParseValue.

(** More fuel does not change a result. *)
Lemma VdfNode_fuel_mono (fuel : nat) :
  (forall s r, VdfNode.new fuel s = Some r ->
     forall fuel', (fuel <= fuel')%nat -> VdfNode.new fuel' s = Some r)
  /\ (forall this s r, VdfNode._parseValue_while fuel this s = Some r ->
     forall fuel', (fuel <= fuel')%nat -> VdfNode._parseValue_while fuel' this s = Some r).
Proof.
  induction fuel as [| fuel [IHn IHw]]; [split; intros; discriminate |].
  split.
  - intros s r H [| fuel'] Hle; [lia |].
    destruct s as [| b rest]; [exact H |].
    rewrite VdfNode_new_cons in *.
    destruct (strict_neq (Some (byte_to_Z b)) VdfTypes.End); [| exact H].
    destruct (parseString rest) as [[name | e] stream]; [| exact H].
    revert H. apply _parseValue_mono.
    + intros s0 r0 H0. apply (IHn _ _ H0). lia.
    + intros t0 s0 r0 H0. apply (IHw _ _ _ H0). lia.
  - intros this s r H [| fuel'] Hle; [lia |].
    cbn [VdfNode._parseValue_while] in *.
    destruct (js_index (VdfNode._children this) (VdfNode._childrenCount this - 1)) as [last |];
      [| exact H].
    destruct (strict_neq (VdfNode._type last) VdfTypes.End); [| exact H].
    apply bind_Some in H as [(e & s1 & H1 & ->) | (child & s1 & H1 & H)].
    + rewrite (IHn _ _ H1 fuel') by lia. reflexivity.
    + rewrite (IHn _ _ H1 fuel') by lia. cbn [bind]. apply (IHw _ _ _ H). lia.
Qed.

(** A node that is constructed has consumed at least its tag byte. *)
Lemma VdfNode_consumes (fuel : nat) :
  (forall s n s', VdfNode.new fuel s = Some (Ok n, s') ->
     (List.length s' < List.length s)%nat)
  /\ (forall this s n s', VdfNode._parseValue_while fuel this s = Some (Ok n, s') ->
     (List.length s' <= List.length s)%nat).
Proof.
  induction fuel as [| fuel [IHn IHw]]; [split; intros; discriminate |].
  split.
  - intros s n s' H. destruct s as [| b rest]; [discriminate |].
    rewrite VdfNode_new_cons in H.
    destruct (strict_neq (Some (byte_to_Z b)) VdfTypes.End).
    + destruct (parseString rest) as [[name | e] stream] eqn:Hs; [| discriminate].
      apply parseString_loop_consumes in Hs.
      apply (_parseValue_consumes _ _ _ _ _ _ IHn IHw) in H. cbn [List.length]. lia.
    + injection H as _ <-. cbn [List.length]. lia.
  - intros this s n s' H. cbn [VdfNode._parseValue_while] in H.
    destruct (js_index (VdfNode._children this) (VdfNode._childrenCount this - 1)) as [last |];
      [| discriminate].
    destruct (strict_neq (VdfNode._type last) VdfTypes.End).
    + apply bind_Some in H as [(e & s1 & H1 & [=]) | (child & s1 & H1 & H)].
      apply IHn in H1. apply IHw in H. lia.
    + injection H as _ <-. lia.
Qed.

(** Fuel linear in the number of unread bytes is never exhausted. *)
Lemma VdfNode_fuel_enough (fuel : nat) :
  (forall s, (2 * List.length s + 1 <= fuel)%nat -> VdfNode.new fuel s <> None)
  /\ (forall this s, (2 * List.length s + 2 <= fuel)%nat ->
        VdfNode._parseValue_while fuel this s <> None).
Proof.
  induction fuel as [| fuel [IHn IHw]]; [split; intros; lia |].
  split.
  - intros s Hf. destruct s as [| b rest]; [discriminate |].
    rewrite VdfNode_new_cons. cbn [List.length] in Hf.
    destruct (strict_neq (Some (byte_to_Z b)) VdfTypes.End); [| discriminate].
    destruct (parseString rest) as [[name | e] stream] eqn:Hs; [| discriminate].
    apply parseString_loop_consumes in Hs.
    apply _parseValue_enough.
    + intros s0 H0. apply IHn. lia.
    + intros t0 s0 H0. apply IHw. lia.
    + apply (VdfNode_consumes fuel).
  - intros this s Hf. cbn [VdfNode._parseValue_while].
    destruct (js_index (VdfNode._children this) (VdfNode._childrenCount this - 1)) as [last |];
      [| discriminate].
    destruct (strict_neq (VdfNode._type last) VdfTypes.End); [| discriminate].
    destruct (VdfNode.new fuel s) as [[[child | e] s1] |] eqn:H1; cbn [bind].
    + apply (VdfNode_consumes fuel) in H1. apply IHw. lia.
    + discriminate.
    + exfalso. apply (IHn s); [lia | exact H1].
Qed.

(** [new VdfNode(stream)] always returns or throws. *)
Lemma VdfNode_decode_total (stream : Readable) : VdfNode.decode stream <> None.
Proof.
  unfold VdfNode.decode, fuel_of. apply VdfNode_fuel_enough. lia.
Qed.

(** The result of a constructor call does not depend on the bound. *)
Lemma VdfNode_decode_fuel (fuel : nat) (stream : Readable) (r : Result VdfNode.t * Readable) :
  VdfNode.new fuel stream = Some r -> VdfNode.decode stream = Some r.
Proof.
  intros H. unfold VdfNode.decode.
  destruct (Nat.le_ge_cases fuel (fuel_of stream)) as [Hle | Hge].
  - now apply (proj1 (VdfNode_fuel_mono fuel) _ _ H).
  - destruct (VdfNode.new (fuel_of stream) stream) as [r' |] eqn:H'.
    + apply (proj1 (VdfNode_fuel_mono _) _ _ H' fuel) in Hge. congruence.
    + now apply VdfNode_decode_total in H'.
Qed.

(** ** Decoding the bytes of a node tree *)

Lemma decoded_not_End (t : NodeTree) :
  well_formed t = true -> strict_neq (VdfNode._type (decoded t)) VdfTypes.End = true.
Proof.
  destruct t as [name kids | name v | name b0 b1 b2 b3 | tag name]; try reflexivity.
  cbn [well_formed decoded VdfNode._type]. unfold unhandled_tag, strict_neq, strict_eq.
  intros H. apply andb_true_iff in H as [H _]. apply andb_true_iff in H as [_ H]. exact H.
Qed.

Lemma decoded_name (t : NodeTree) : VdfNode._name (decoded t) = Some (tree_name t).
Proof. destruct t; reflexivity. Qed.

Lemma js_index_last {A : Type} (l : list A) (x : A) :
  js_index (l ++ [x]) (Z.of_nat (List.length l) + 1 - 1) = Some x.
Proof.
  unfold js_index.
  replace (Z.of_nat (List.length l) + 1 - 1) with (Z.of_nat (List.length l)) by lia.
  destruct (Z.ltb_spec (Z.of_nat (List.length l)) 0); [lia |].
  rewrite Nat2Z.id, nth_error_app2, Nat.sub_diag by lia. reflexivity.
Qed.

Lemma loop_state_index (this : VdfNode.t) :
  loop_state this ->
  exists last, js_index (VdfNode._children this) (VdfNode._childrenCount this - 1) = Some last
               /\ strict_neq (VdfNode._type last) VdfTypes.End = true.
Proof.
  intros (Hc & pre & last & Hch & Hl). exists last. split; [| exact Hl].
  rewrite Hc, Hch, length_app. cbn [List.length].
  replace (Z.of_nat (List.length pre + 1) - 1) with (Z.of_nat (List.length pre) + 1 - 1) by lia.
  apply js_index_last.
Qed.

Ltac norm_this :=
  cbv beta iota delta
    [VdfNode.set_children VdfNode.set_childrenCount VdfNode.set_type VdfNode.set_name
     VdfNode.set_value VdfNode._type VdfNode._name VdfNode._value
     VdfNode._childrenCount VdfNode._children].

Tactic Notation "norm_this" "in" "*" :=
  cbv beta iota delta
    [VdfNode.set_children VdfNode.set_childrenCount VdfNode.set_type VdfNode.set_name
     VdfNode.set_value VdfNode._type VdfNode._name VdfNode._value
     VdfNode._childrenCount VdfNode._children] in *.

(** Provided the bound is not reached, the constructor run on the bytes
    of a well-formed tree builds [decoded t] and leaves what follows
    unread; the loop of a map reads the remaining children and the
    terminator, and appends them all. *)
Lemma VdfNode_new_node_bytes (fuel : nat) :
  (forall t rest, well_formed t = true ->
     VdfNode.new fuel (node_bytes t ++ rest) <> None ->
     VdfNode.new fuel (node_bytes t ++ rest) = Some (Ok (decoded t), rest))
  /\ (forall kids this rest, forallb well_formed kids = true -> loop_state this ->
     VdfNode._parseValue_while fuel this (flat_map node_bytes kids ++ x08 :: rest) <> None ->
     VdfNode._parseValue_while fuel this (flat_map node_bytes kids ++ x08 :: rest)
     = Some (Ok (VdfNode.mk (VdfNode._type this) (VdfNode._name this) (VdfNode._value this)
                   (VdfNode._childrenCount this + Z.of_nat (List.length kids) + 1)
                   (VdfNode._children this ++ map decoded kids ++ [terminator])),
             rest)).
Proof.
  induction fuel as [| fuel [IHn IHw]].
  { split; intros; match goal with H : _ <> None |- _ => now contradiction H end. }
  split.
  - intros t rest Hwf Hnn.
    destruct t as [name kids | name v | name b0 b1 b2 b3 | tag name];
      cbn [well_formed] in Hwf; cbn [node_bytes app] in *.
    + (* map *)
      apply andb_true_iff in Hwf as [Hname Hkids].
      rewrite <- !app_assoc in *. cbn [app] in *.
      rewrite VdfNode_new_cons in *.
      change (strict_neq (Some (byte_to_Z x00)) VdfTypes.End) with true in *. cbv iota in *.
      rewrite parseString_cstring in * by assumption.
      unfold VdfNode._parseValue in *.
      change (strict_eq (VdfNode._type (VdfNode.mk (Some (byte_to_Z x00)) (Some name) JsUndefined 0 []))
                VdfTypes.Map) with true in *. cbv iota in *.
      destruct kids as [| k ks].
      * cbn [flat_map app] in *.
        destruct fuel as [| fuel']; [now contradiction Hnn | reflexivity].
      * cbn [flat_map forallb] in *. apply andb_true_iff in Hkids as [Hk Hks].
        rewrite <- !app_assoc in *.
        assert (Hk' : VdfNode.new fuel (node_bytes k ++ flat_map node_bytes ks ++ x08 :: rest)
                      <> None) by (intros E; apply Hnn; now rewrite E).
        rewrite (IHn k _ Hk Hk') in *. cbn [bind] in *. norm_this in *.
        match type of Hnn with
        | bind (VdfNode._parseValue_while fuel ?this ?s) _ <> None =>
            assert (Hls : loop_state this);
            [| assert (Hw' : VdfNode._parseValue_while fuel this s <> None)
                 by (intros E; apply Hnn; now rewrite E);
               rewrite (IHw ks this rest Hks Hls Hw') ]
        end.
        { split; [reflexivity |]. exists [], (decoded k). split; [reflexivity |].
          now apply decoded_not_End. }
        cbn [bind]. norm_this. unfold js_pop, js_push. cbn [decoded map List.length app].
        rewrite app_comm_cons, removelast_last.
        replace (0 + 1 + Z.of_nat (List.length ks) + 1 - 1)
          with (Z.of_nat (S (List.length ks))) by lia.
        reflexivity.
    + (* string *)
      apply andb_true_iff in Hwf as [Hname Hv].
      rewrite <- !app_assoc. rewrite VdfNode_new_cons.
      change (strict_neq (Some (byte_to_Z x01)) VdfTypes.End) with true. cbv iota.
      rewrite parseString_cstring by assumption.
      unfold VdfNode._parseValue. cbn [VdfNode._type].
      change (strict_eq (Some (byte_to_Z x01)) VdfTypes.Map) with false.
      change (strict_eq (Some (byte_to_Z x01)) VdfTypes.String) with true. cbv iota.
      rewrite parseString_cstring by assumption. reflexivity.
    + (* int32 *)
      rewrite <- !app_assoc. rewrite VdfNode_new_cons.
      change (strict_neq (Some (byte_to_Z x02)) VdfTypes.End) with true. cbv iota.
      rewrite parseString_cstring by assumption.
      unfold VdfNode._parseValue. cbn [VdfNode._type].
      change (strict_eq (Some (byte_to_Z x02)) VdfTypes.Map) with false.
      change (strict_eq (Some (byte_to_Z x02)) VdfTypes.String) with false.
      change (strict_eq (Some (byte_to_Z x02)) VdfTypes.Int32) with true. cbv iota.
      cbn [app]. rewrite parseNumber_32. reflexivity.
    + (* a tag without value *)
      apply andb_true_iff in Hwf as [Htag Hname].
      unfold unhandled_tag in Htag.
      apply andb_true_iff in Htag as [Htag H8]. apply andb_true_iff in Htag as [Htag H2].
      apply andb_true_iff in Htag as [H0 H1].
      rewrite VdfNode_new_cons.
      unfold strict_neq, strict_eq. rewrite H8.
      rewrite parseString_cstring by assumption.
      unfold VdfNode._parseValue, strict_eq. cbn [VdfNode._type].
      apply negb_true_iff in H0, H1, H2. rewrite H0, H1, H2. reflexivity.
  - intros kids this rest Hkids Hls Hnn.
    destruct (loop_state_index this Hls) as (last & Hidx & Hlast).
    destruct Hls as (Hc & pre & last' & Hch & Hl').
    cbn [VdfNode._parseValue_while] in *. rewrite Hidx, Hlast in *.
    destruct this as [ty nm vl cnt chs]. norm_this in *.
    destruct kids as [| k ks].
    + cbn [flat_map app] in *.
      destruct fuel as [| fuel']; [now contradiction Hnn |].
      rewrite VdfNode_new_cons.
      change (strict_neq (Some (byte_to_Z x08)) VdfTypes.End) with false. cbv iota.
      cbn [bind VdfNode._parseValue_while]. norm_this.
      unfold js_push. rewrite Hc, js_index_last.
      change (strict_neq (Some (byte_to_Z x08)) VdfTypes.End) with false. cbv iota.
      cbn [map app List.length].
      replace (Z.of_nat (List.length chs) + Z.of_nat 0 + 1)
        with (Z.of_nat (List.length chs) + 1) by lia.
      reflexivity.
    + cbn [flat_map forallb] in *. apply andb_true_iff in Hkids as [Hk Hks].
      rewrite <- !app_assoc in *.
      assert (Hk' : VdfNode.new fuel (node_bytes k ++ flat_map node_bytes ks ++ x08 :: rest)
                    <> None) by (intros E; apply Hnn; now rewrite E).
      rewrite (IHn k _ Hk Hk') in *. cbn [bind] in *.
      match type of Hnn with
      | VdfNode._parseValue_while fuel ?this' ?s <> None =>
          assert (Hls : loop_state this');
          [| rewrite (IHw ks this' rest Hks Hls Hnn) ]
      end.
      { split.
        - norm_this. unfold js_push. rewrite length_app, Hc.
          cbn [List.length]. lia.
        - exists chs, (decoded k). split; [reflexivity |].
          now apply decoded_not_End. }
      norm_this. cbn [map List.length].
      unfold js_push. rewrite <- !app_assoc. cbn [app].
      replace (cnt + 1 + Z.of_nat (List.length ks) + 1)
        with (cnt + Z.of_nat (S (List.length ks)) + 1) by lia.
      reflexivity.
Qed.

(** [new VdfNode(stream)] on the bytes of a well-formed tree. *)
Lemma VdfNode_decode_node_bytes (t : NodeTree) (rest : Readable) :
  well_formed t = true ->
  VdfNode.decode (node_bytes t ++ rest) = Some (Ok (decoded t), rest).
Proof.
  intros Hwf. unfold VdfNode.decode.
  apply (VdfNode_new_node_bytes _); [assumption |].
  apply VdfNode_decode_total.
Qed.

(** ** Own properties of the externalised objects *)

Lemma obj_get_assoc_set (k k' : string) (v : VdfNodeJson) (o : VdfGameJson) :
  obj_get k (assoc_set k' v o) = if String.eqb k k' then Some v else obj_get k o.
Proof.
  induction o as [| [k0 v0] o IH]; cbn [assoc_set obj_get].
  - reflexivity.
  - destruct (String.eqb_spec k' k0) as [-> | Hne]; cbn [obj_get].
    + destruct (String.eqb k k0); reflexivity.
    + rewrite IH.
      destruct (String.eqb_spec k k0) as [-> | Hne0]; [| reflexivity].
      destruct (String.eqb_spec k0 k') as [-> | _]; [contradiction | reflexivity].
Qed.

Lemma obj_get_obj_set (k k' : string) (v : VdfNodeJson) (o : VdfGameJson) :
  obj_get k (obj_set k' v o)
  = if String.eqb k' "__proto__" then obj_get k o
    else if String.eqb k k' then Some v else obj_get k o.
Proof.
  unfold obj_set. destruct (String.eqb k' "__proto__"); [reflexivity |].
  apply obj_get_assoc_set.
Qed.

(** A property found after the assignments was there before or carries
    the name of a child. *)
Lemma obj_get_assign_children (children : list VdfNode.t) (object : VdfGameJson)
    (key : string) (v : VdfNodeJson) :
  obj_get key (assign_children children object) = Some v ->
  obj_get key object = Some v
  \/ exists child, In child children /\ property_key (VdfNode._name child) = key.
Proof.
  revert object. induction children as [| c children IH]; intros object H.
  - now left.
  - cbn [assign_children fold_left] in H. apply IH in H as [H | (child & Hin & Hk)].
    + rewrite obj_get_obj_set in H.
      destruct (String.eqb (property_key (VdfNode._name c)) "__proto__"); [now left |].
      destruct (String.eqb_spec key (property_key (VdfNode._name c))) as [-> | Hne].
      * right. exists c. split; [now left | reflexivity].
      * now left.
    + right. exists child. split; [now right | exact Hk].
Qed.

(** A property that no child is named after is left as it was. *)
Lemma obj_get_assign_children_other (children : list VdfNode.t) (object : VdfGameJson)
    (key : string) :
  (forall child, In child children -> property_key (VdfNode._name child) <> key) ->
  obj_get key (assign_children children object) = obj_get key object.
Proof.
  revert object. induction children as [| c children IH]; intros object H.
  - reflexivity.
  - cbn [assign_children fold_left].
    rewrite (IH (obj_set _ _ object)) by (intros child Hin; apply H; now right).
    rewrite obj_get_obj_set.
    destruct (String.eqb (property_key (VdfNode._name c)) "__proto__"); [reflexivity |].
    destruct (String.eqb_spec key (property_key (VdfNode._name c))) as [Heq | Hne];
      [| reflexivity].
    exfalso. apply (H c); [now left | now symmetry].
Qed.

(** An own property stays an own property. *)
Lemma obj_get_assign_children_present (children : list VdfNode.t) (object : VdfGameJson)
    (key : string) :
  obj_get key object <> None -> obj_get key (assign_children children object) <> None.
Proof.
  revert object. induction children as [| c children IH]; intros object H.
  - exact H.
  - cbn [assign_children fold_left]. apply IH. rewrite obj_get_obj_set.
    destruct (String.eqb (property_key (VdfNode._name c)) "__proto__"); [exact H |].
    destruct (String.eqb key (property_key (VdfNode._name c))); [discriminate | exact H].
Qed.

Lemma VdfNode_value_map (name : option string) (v : VdfNodeJson) (count : Z)
    (children : list VdfNode.t) :
  VdfNode.value (VdfNode.mk (Some VdfTypes.Map) name v count children)
  = JsObject (assign_children children []).
Proof. reflexivity. Qed.

(** ** C6: a map and its terminator *)

(** C6: for the bytes of a well-formed map (tag 0, name, the bytes of its
    children, the terminator tag 8) followed by anything, the constructor
    returns a node and leaves exactly what follows the terminator unread;
    the node's count is the number of children laid out, its array holds
    the nodes decoded from them and none with the terminator tag, and
    every own property of its externalised value is named after one of
    those children. *)
Theorem map_node_excludes_terminator (name : string) (kids : list NodeTree)
    (rest : Readable) :
  well_formed (TMap name kids) = true ->
  exists node fields,
    VdfNode.decode (x00 :: cstring name ++ flat_map node_bytes kids ++ x08 :: rest)
      = Some (Ok node, rest)
    /\ VdfNode._childrenCount node = Z.of_nat (List.length kids)
    /\ VdfNode._children node = map decoded kids
    /\ Forall (fun child => strict_neq (VdfNode._type child) VdfTypes.End = true)
         (VdfNode._children node)
    /\ VdfNode.value node = JsObject fields
    /\ forall key v, obj_get key fields = Some v ->
         exists kid, In kid kids /\ tree_name kid = key.
Proof.
  intros Hwf.
  exists (decoded (TMap name kids)), (assign_children (map decoded kids) []).
  split.
  { rewrite <- (VdfNode_decode_node_bytes (TMap name kids) rest Hwf).
    cbn [node_bytes app]. now rewrite <- !app_assoc. }
  split; [reflexivity |]. split; [reflexivity |]. split.
  { cbn [decoded VdfNode._children]. apply Forall_forall. intros child Hin.
    apply in_map_iff in Hin as (kid & <- & Hin). apply decoded_not_End.
    cbn [well_formed] in Hwf. apply andb_true_iff in Hwf as [_ Hkids].
    rewrite forallb_forall in Hkids. now apply Hkids. }
  split; [apply VdfNode_value_map |].
  intros key v H. apply obj_get_assign_children in H as [H | (child & Hin & Hk)];
    [discriminate |].
  apply in_map_iff in Hin as (kid & <- & Hin). exists kid. split; [exact Hin |].
  rewrite decoded_name in Hk. exact Hk.
Qed.

Lemma map_node_excludes_terminator_witness :
  exists node fields,
    VdfNode.decode
      (x00 :: cstring "a" ++ flat_map node_bytes [TString "b" "hi"; TMap "c" []]
           ++ x08 :: [x2a])
      = Some (Ok node, [x2a])
    /\ VdfNode._childrenCount node = 2
    /\ VdfNode._children node = map decoded [TString "b" "hi"; TMap "c" []]
    /\ Forall (fun child => strict_neq (VdfNode._type child) VdfTypes.End = true)
         (VdfNode._children node)
    /\ VdfNode.value node = JsObject fields
    /\ forall key v, obj_get key fields = Some v ->
         exists kid, In kid [TString "b" "hi"; TMap "c" []] /\ tree_name kid = key.
Proof.
  apply (map_node_excludes_terminator "a" [TString "b" "hi"; TMap "c" []] [x2a]).
  reflexivity.
Defined.

(** ** C8: tags without decode logic *)

(** C8: for a tag among float32, pointer, wide-string, color and uint64,
    the constructor consumes the tag byte and the NUL-terminated name and
    nothing more, does not throw, and leaves the value unset. *)
Theorem unhandled_tag_reads_no_value (tag : byte) (name : string) (rest : Readable) :
  In (byte_to_Z tag)
     [VdfTypes.Float32; VdfTypes.Ptr; VdfTypes.Wstring; VdfTypes.Color; VdfTypes.Uint64] ->
  no_nul name = true ->
  let node := VdfNode.mk (Some (byte_to_Z tag)) (Some name) JsUndefined 0 [] in
  VdfNode.decode (tag :: cstring name ++ rest) = Some (Ok node, rest)
  /\ VdfNode.value node = JsUndefined.
Proof.
  intros Htag Hname node.
  assert (Hu : unhandled_tag tag = true).
  { unfold unhandled_tag. cbn [In] in Htag.
    destruct Htag as [<- | [<- | [<- | [<- | [<- | []]]]]]; reflexivity. }
  split.
  - apply (VdfNode_decode_node_bytes (TOther tag name) rest).
    cbn [well_formed]. now rewrite Hu, Hname.
  - unfold node. cbn [VdfNode.value VdfNode._type VdfNode._value].
    unfold unhandled_tag in Hu.
    apply andb_true_iff in Hu as [Hu _]. apply andb_true_iff in Hu as [Hu _].
    apply andb_true_iff in Hu as [Hu _].
    unfold strict_neq, strict_eq. change VdfTypes.Map with 0 in Hu. now rewrite Hu.
Qed.

Lemma unhandled_tag_reads_no_value_witness :
  let node := VdfNode.mk (Some 3) (Some "f"%string) JsUndefined 0 [] in
  VdfNode.decode (x03 :: cstring "f" ++ [x00; x00; x80; x3f])
    = Some (Ok node, [x00; x00; x80; x3f])
  /\ VdfNode.value node = JsUndefined.
Proof.
  apply (unhandled_tag_reads_no_value x03 "f" [x00; x00; x80; x3f]).
  - cbn. left. reflexivity.
  - reflexivity.
Defined.

(** ** C9: string and int32 nodes *)

(** C9: a string node whose value bytes are [hello] and a NUL decodes to
    the string [hello], the NUL consumed and not appended; an int32 node
    whose value bytes are FF FF FF FF decodes to -1. *)
Theorem scalar_nodes_decode (name : string) (rest : Readable) :
  no_nul name = true ->
  let str_node := VdfNode.mk (Some VdfTypes.String) (Some name) (JsString "hello") 0 [] in
  let int_node := VdfNode.mk (Some VdfTypes.Int32) (Some name) (JsNumber (-1)) 0 [] in
  VdfNode.decode (x01 :: cstring name ++ [x68; x65; x6c; x6c; x6f; x00] ++ rest)
    = Some (Ok str_node, rest)
  /\ VdfNode.value str_node = JsString "hello"
  /\ VdfNode.decode (x02 :: cstring name ++ [xff; xff; xff; xff] ++ rest)
    = Some (Ok int_node, rest)
  /\ VdfNode.value int_node = JsNumber (-1).
Proof.
  intros Hname str_node int_node.
  split; [| split; [reflexivity | split; [| reflexivity]]].
  - change str_node with (decoded (TString name "hello")).
    rewrite <- (VdfNode_decode_node_bytes (TString name "hello") rest)
      by (cbn [well_formed]; now rewrite Hname).
    cbn [node_bytes app]. now rewrite <- !app_assoc.
  - change int_node with (decoded (TInt32 name xff xff xff xff)).
    rewrite <- (VdfNode_decode_node_bytes (TInt32 name xff xff xff xff) rest)
      by (cbn [well_formed]; exact Hname).
    cbn [node_bytes app]. now rewrite <- !app_assoc.
Qed.

Lemma scalar_nodes_decode_witness :
  let str_node := VdfNode.mk (Some 1) (Some "k"%string) (JsString "hello") 0 [] in
  let int_node := VdfNode.mk (Some 2) (Some "k"%string) (JsNumber (-1)) 0 [] in
  VdfNode.decode (x01 :: cstring "k" ++ [x68; x65; x6c; x6c; x6f; x00] ++ [x08])
    = Some (Ok str_node, [x08])
  /\ VdfNode.value str_node = JsString "hello"
  /\ VdfNode.decode (x02 :: cstring "k" ++ [xff; xff; xff; xff] ++ [x08])
    = Some (Ok int_node, [x08])
  /\ VdfNode.value int_node = JsNumber (-1).
Proof.
  apply (scalar_nodes_decode "k" [x08]). reflexivity.
Defined.

(** ** The constructor of [VdfGame]: fuel and progress *)

Lemma parseRawBytes_rest (stream : Readable) (length : nat) :
  snd (parseRawBytes stream length) = skipn (Nat.div length 8) stream.
Proof.
  unfold parseRawBytes.
  pose proof (Readable_read_rest stream (Nat.div length 8)) as H.
  destruct (Readable_read stream (Nat.div length 8)) as [r s']. exact H.
Qed.

Lemma parseNumber_length (stream : Readable) (length : nat) :
  (List.length (snd (parseNumber stream length)) <= List.length stream)%nat.
Proof. rewrite parseNumber_rest, length_skipn. lia. Qed.

(** The header of an entry never gives bytes back. *)
Lemma VdfGame_parseHeader_length (s s' : Readable) (r : Result VdfGame.t) :
  VdfGame._parseHeader s = (r, s') -> (List.length s' <= List.length s)%nat.
Proof.
  unfold VdfGame._parseHeader.
  pose proof (parseNumber_length s 32) as H1.
  destruct (parseNumber s 32) as [appId s1]. cbn [snd] in H1.
  pose proof (parseNumber_length s1 32) as H2.
  destruct (parseNumber s1 32) as [dataSize s2]. cbn [snd] in H2.
  pose proof (parseNumber_length s2 32) as H3.
  destruct (parseNumber s2 32) as [infoState s3]. cbn [snd] in H3.
  pose proof (parseNumber_length s3 32) as H4.
  destruct (parseNumber s3 32) as [lastUpdated s4]. cbn [snd] in H4.
  pose proof (parseNumber_length s4 64) as H5.
  destruct (parseNumber s4 64) as [accessToken s5]. cbn [snd] in H5.
  pose proof (parseRawBytes_rest s5 160) as H6.
  destruct (parseRawBytes s5 160) as [[sha | e] s6]; cbn [snd] in H6.
  - pose proof (parseNumber_length s6 32) as H7.
    destruct (parseNumber s6 32) as [changeNumber s7]. cbn [snd] in H7.
    intros H. injection H as _ <-. subst s6. rewrite length_skipn in H7. lia.
  - intros H. injection H as _ <-. subst s6. rewrite length_skipn. lia.
Qed.

Lemma VdfGame_while_mono (fuel : nat) :
  forall this s r, VdfGame._parseBody_while fuel this s = Some r ->
  forall fuel', (fuel <= fuel')%nat -> VdfGame._parseBody_while fuel' this s = Some r.
Proof.
  induction fuel as [| fuel IH]; [intros; discriminate |].
  intros this s r H [| fuel'] Hle; [lia |].
  cbn [VdfGame._parseBody_while] in *.
  destruct (js_index (VdfGame._children this) (VdfGame._childrenCount this - 1)) as [last |];
    [| exact H].
  destruct (strict_neq (VdfNode._type last) VdfTypes.End); [| exact H].
  apply bind_Some in H as [(e & s1 & H1 & ->) | (child & s1 & H1 & H)].
  - rewrite (proj1 (VdfNode_fuel_mono fuel) _ _ H1 fuel') by lia. reflexivity.
  - rewrite (proj1 (VdfNode_fuel_mono fuel) _ _ H1 fuel') by lia. cbn [bind].
    apply (IH _ _ _ H). lia.
Qed.

Lemma VdfGame_while_consumes (fuel : nat) :
  forall this s this' s', VdfGame._parseBody_while fuel this s = Some (Ok this', s') ->
  (List.length s' <= List.length s)%nat.
Proof.
  induction fuel as [| fuel IH]; [intros; discriminate |].
  intros this s this' s' H. cbn [VdfGame._parseBody_while] in H.
  destruct (js_index (VdfGame._children this) (VdfGame._childrenCount this - 1)) as [last |];
    [| discriminate].
  destruct (strict_neq (VdfNode._type last) VdfTypes.End).
  - apply bind_Some in H as [(e & s1 & H1 & [=]) | (child & s1 & H1 & H)].
    apply (VdfNode_consumes fuel) in H1. apply IH in H. lia.
  - injection H as _ <-. lia.
Qed.

Lemma VdfGame_while_enough (fuel : nat) :
  forall this s, (2 * List.length s + 2 <= fuel)%nat ->
  VdfGame._parseBody_while fuel this s <> None.
Proof.
  induction fuel as [| fuel IH]; [intros; lia |].
  intros this s Hf. cbn [VdfGame._parseBody_while].
  destruct (js_index (VdfGame._children this) (VdfGame._childrenCount this - 1)) as [last |];
    [| discriminate].
  destruct (strict_neq (VdfNode._type last) VdfTypes.End); [| discriminate].
  destruct (VdfNode.new fuel s) as [[[child | e] s1] |] eqn:H1; cbn [bind].
  - apply (VdfNode_consumes fuel) in H1. apply IH. lia.
  - discriminate.
  - exfalso. apply (proj1 (VdfNode_fuel_enough fuel) s); [lia | exact H1].
Qed.

Lemma VdfGame_new_mono (fuel fuel' : nat) (s : Readable) (r : Result VdfGame.t * Readable) :
  VdfGame.new fuel s = Some r -> (fuel <= fuel')%nat -> VdfGame.new fuel' s = Some r.
Proof.
  unfold VdfGame.new, VdfGame._parseBody. intros H Hle.
  destruct (VdfGame._parseHeader s) as [[this | e] s0]; [| exact H].
  apply bind_Some in H as [(e & s1 & H1 & ->) | (child & s1 & H1 & H)].
  - rewrite (proj1 (VdfNode_fuel_mono fuel) _ _ H1 fuel') by lia. reflexivity.
  - rewrite (proj1 (VdfNode_fuel_mono fuel) _ _ H1 fuel') by lia. cbn [bind].
    apply bind_Some in H as [(e & s2 & H2 & ->) | (this2 & s2 & H2 & H)].
    + rewrite (VdfGame_while_mono fuel _ _ _ H2 fuel') by lia. reflexivity.
    + rewrite (VdfGame_while_mono fuel _ _ _ H2 fuel') by lia. exact H.
Qed.

(** An entry that is constructed has consumed at least one byte. *)
Lemma VdfGame_new_consumes (fuel : nat) (s s' : Readable) (g : VdfGame.t) :
  VdfGame.new fuel s = Some (Ok g, s') -> (List.length s' < List.length s)%nat.
Proof.
  unfold VdfGame.new, VdfGame._parseBody.
  destruct (VdfGame._parseHeader s) as [[this | e] s0] eqn:Hh; [| discriminate].
  apply VdfGame_parseHeader_length in Hh. intros H.
  apply bind_Some in H as [(e & s1 & H1 & [=]) | (child & s1 & H1 & H)].
  apply bind_Some in H as [(e & s2 & H2 & [=]) | (this2 & s2 & H2 & H)].
  injection H as _ <-.
  apply (VdfNode_consumes fuel) in H1. apply VdfGame_while_consumes in H2. lia.
Qed.

Lemma VdfGame_new_enough (fuel : nat) (s : Readable) :
  (2 * List.length s + 1 <= fuel)%nat -> VdfGame.new fuel s <> None.
Proof.
  unfold VdfGame.new, VdfGame._parseBody. intros Hf.
  destruct (VdfGame._parseHeader s) as [[this | e] s0] eqn:Hh; [| discriminate].
  apply VdfGame_parseHeader_length in Hh.
  destruct (VdfNode.new fuel s0) as [[[child | e] s1] |] eqn:H1; cbn [bind].
  - apply (VdfNode_consumes fuel) in H1.
    destruct (VdfGame._parseBody_while fuel _ s1) as [[[this2 | e] s2] |] eqn:H2;
      cbn [bind]; try discriminate.
    exfalso. revert H2. apply VdfGame_while_enough. lia.
  - discriminate.
  - exfalso. apply (proj1 (VdfNode_fuel_enough fuel) s0); [lia | exact H1].
Qed.

(** [new VdfGame(stream)] always returns or throws, and its result does
    not depend on the bound. *)
Lemma VdfGame_decode_total (stream : Readable) : VdfGame.decode stream <> None.
Proof. unfold VdfGame.decode, fuel_of. apply VdfGame_new_enough. lia. Qed.

Lemma VdfGame_new_decode (fuel : nat) (stream : Readable) :
  (2 * List.length stream + 1 <= fuel)%nat ->
  VdfGame.new fuel stream = VdfGame.decode stream.
Proof.
  intros Hf. pose proof (VdfGame_new_enough fuel stream Hf) as Hn.
  pose proof (VdfGame_decode_total stream) as Hd. unfold VdfGame.decode in *.
  destruct (VdfGame.new fuel stream) as [r |] eqn:H; [| contradiction].
  destruct (VdfGame.new (fuel_of stream) stream) as [r' |] eqn:H'; [| contradiction].
  destruct (Nat.le_ge_cases fuel (fuel_of stream)) as [Hle | Hge].
  - apply (VdfGame_new_mono _ _ _ _ H) in Hle. congruence.
  - apply (VdfGame_new_mono _ _ _ _ H') in Hge. congruence.
Qed.

(** At the end of the input the constructor of an entry throws: the four
    32-bit fields and the token read as 0, and [parseRawBytes] throws on
    the second byte of the digest. *)
Lemma VdfGame_new_exhausted (fuel : nat) :
  VdfGame.new fuel [] = Some (Throw TypeError, []).
Proof. reflexivity. Qed.

(** ** Decoding the bytes of an entry *)

Lemma parseNumber_eta (stream : Readable) (length : nat) :
  parseNumber stream length
  = (fst (parseNumber stream length), skipn (Nat.div length 8) stream).
Proof.
  rewrite <- parseNumber_rest. now destruct (parseNumber stream length).
Qed.

(** With all its bytes available [parseRawBytes] returns. *)
Lemma parseRawBytes_available (stream : Readable) (length : nat) :
  (1 <= Nat.div length 8 <= List.length stream)%nat ->
  parseRawBytes stream length
  = (Ok (raw_hex (firstn (Nat.div length 8) stream)), skipn (Nat.div length 8) stream).
Proof.
  intros Hn. unfold parseRawBytes.
  remember (Nat.div length 8) as n eqn:En. clear En.
  assert (Hlen : List.length (firstn n stream) = n) by (rewrite length_firstn; lia).
  assert (Hne : firstn n stream <> []).
  { intros E. rewrite E in Hlen. cbn [List.length] in Hlen. lia. }
  pose proof (Readable_read_exact (firstn n stream) (skipn n stream) Hne) as Hr.
  rewrite firstn_skipn, Hlen in Hr. rewrite Hr. f_equal.
  pose proof (parseRawBytes_loop_all [] (firstn n stream) EmptyString) as Hl.
  rewrite Hlen in Hl. exact Hl.
Qed.

(** With 48 bytes available the header of an entry is read in full. *)
Lemma VdfGame_parseHeader_complete (stream : Readable) :
  (48 <= List.length stream)%nat ->
  exists this,
    VdfGame._parseHeader stream = (Ok this, skipn 48 stream)
    /\ VdfGame._childrenCount this = 0 /\ VdfGame._children this = [].
Proof.
  intros H. unfold VdfGame._parseHeader.
  rewrite (parseNumber_eta stream 32). change (Nat.div 32 8) with 4%nat.
  rewrite (parseNumber_eta (skipn 4 stream) 32). change (Nat.div 32 8) with 4%nat.
  rewrite skipn_skipn. cbn [Nat.add].
  rewrite (parseNumber_eta (skipn 8 stream) 32). change (Nat.div 32 8) with 4%nat.
  rewrite skipn_skipn. cbn [Nat.add].
  rewrite (parseNumber_eta (skipn 12 stream) 32). change (Nat.div 32 8) with 4%nat.
  rewrite skipn_skipn. cbn [Nat.add].
  rewrite (parseNumber_eta (skipn 16 stream) 64). change (Nat.div 64 8) with 8%nat.
  rewrite skipn_skipn. cbn [Nat.add].
  rewrite (parseRawBytes_available (skipn 24 stream) 160)
    by (change (Nat.div 160 8) with 20%nat; rewrite length_skipn; lia).
  change (Nat.div 160 8) with 20%nat. rewrite skipn_skipn. cbn [Nat.add].
  rewrite (parseNumber_eta (skipn 44 stream) 32). change (Nat.div 32 8) with 4%nat.
  rewrite skipn_skipn. cbn [Nat.add].
  eexists. split; [reflexivity |]. split; reflexivity.
Qed.

Ltac norm_game :=
  cbv beta iota delta
    [VdfGame.set_children VdfGame.set_childrenCount VdfGame._childrenCount
     VdfGame._children].

Tactic Notation "norm_game" "in" "*" :=
  cbv beta iota delta
    [VdfGame.set_children VdfGame.set_childrenCount VdfGame._childrenCount
     VdfGame._children] in *.

(** The loop of [_parseBody] on the bytes of the remaining root-level
    nodes and the terminator. *)
Lemma VdfGame_while_node_bytes (fuel : nat) :
  forall roots this rest, forallb well_formed roots = true -> game_loop_state this ->
    VdfGame._parseBody_while fuel this (flat_map node_bytes roots ++ x08 :: rest) <> None ->
    VdfGame._parseBody_while fuel this (flat_map node_bytes roots ++ x08 :: rest)
    = Some (Ok (VdfGame.set_children
                  (VdfGame.set_childrenCount this
                     (VdfGame._childrenCount this + Z.of_nat (List.length roots) + 1))
                  (VdfGame._children this ++ map decoded roots ++ [terminator])),
            rest).
Proof.
  induction fuel as [| fuel IH]; [intros ? ? ? _ _ H; now contradiction H |].
  intros roots this rest Hroots Hls Hnn.
  destruct Hls as (Hc & pre & last & Hch & Hlast).
  assert (Hidx : js_index (VdfGame._children this) (VdfGame._childrenCount this - 1)
                 = Some last).
  { rewrite Hc, Hch, length_app. cbn [List.length].
    replace (Z.of_nat (List.length pre + 1) - 1)
      with (Z.of_nat (List.length pre) + 1 - 1) by lia.
    apply js_index_last. }
  cbn [VdfGame._parseBody_while] in *. rewrite Hidx, Hlast in *.
  destruct this as [f1 f2 f3 f4 f5 f6 f7 cnt chs]. norm_game in *.
  destruct roots as [| r rs].
  - cbn [flat_map app] in *.
    destruct fuel as [| fuel']; [now contradiction Hnn |].
    rewrite VdfNode_new_cons.
    change (strict_neq (Some (byte_to_Z x08)) VdfTypes.End) with false. cbv iota.
    cbn [bind VdfGame._parseBody_while]. norm_game.
    unfold js_push. rewrite Hc, js_index_last.
    change (strict_neq (VdfNode._type
              (VdfNode.mk (Some (byte_to_Z x08)) None JsUndefined 0 [])) VdfTypes.End)
      with false. cbv iota.
    cbn [map app List.length].
    replace (Z.of_nat (List.length chs) + Z.of_nat 0 + 1)
      with (Z.of_nat (List.length chs) + 1) by lia.
    reflexivity.
  - cbn [flat_map forallb] in *. apply andb_true_iff in Hroots as [Hr Hrs].
    rewrite <- !app_assoc in *.
    assert (Hr' : VdfNode.new fuel (node_bytes r ++ flat_map node_bytes rs ++ x08 :: rest)
                  <> None) by (intros E; apply Hnn; now rewrite E).
    rewrite (proj1 (VdfNode_new_node_bytes fuel) r _ Hr Hr') in *. cbn [bind] in *.
    match type of Hnn with
    | VdfGame._parseBody_while fuel ?this' ?s <> None =>
        assert (Hls : game_loop_state this');
        [| rewrite (IH rs this' rest Hrs Hls Hnn) ]
    end.
    { split.
      - norm_game. unfold js_push. rewrite length_app, Hc. cbn [List.length]. lia.
      - exists chs, (decoded r). split; [reflexivity |]. now apply decoded_not_End. }
    norm_game. cbn [map List.length].
    unfold js_push. rewrite <- !app_assoc. cbn [app].
    replace (cnt + 1 + Z.of_nat (List.length rs) + 1)
      with (cnt + Z.of_nat (S (List.length rs)) + 1) by lia.
    reflexivity.
Qed.

(** The constructor of an entry on the bytes of an entry: the header is
    read, the root-level nodes are decoded, the terminator is consumed
    and removed. *)
Lemma VdfGame_new_entry_bytes (fuel : nat) (header : list byte)
    (roots : list NodeTree) (rest : Readable) :
  List.length header = 48%nat ->
  forallb well_formed roots = true ->
  VdfGame.new fuel (header ++ flat_map node_bytes roots ++ x08 :: rest) <> None ->
  exists g,
    VdfGame.new fuel (header ++ flat_map node_bytes roots ++ x08 :: rest)
      = Some (Ok g, rest)
    /\ VdfGame._childrenCount g = Z.of_nat (List.length roots)
    /\ VdfGame._children g = map decoded roots.
Proof.
  intros Hlen Hroots Hnn. unfold VdfGame.new in *.
  destruct (VdfGame_parseHeader_complete
              (header ++ flat_map node_bytes roots ++ x08 :: rest))
    as (this & Hh & Hc0 & Hch0); [rewrite length_app; lia |].
  rewrite skipn_app, <- Hlen, skipn_all, Nat.sub_diag, skipn_O in Hh. cbn [app] in Hh.
  rewrite Hh in *. unfold VdfGame._parseBody in *.
  destruct this as [f1 f2 f3 f4 f5 f6 f7 cnt chs]. norm_game in *. subst cnt chs.
  destruct roots as [| r rs].
  - cbn [flat_map app] in *.
    destruct fuel as [| fuel']; [now contradiction Hnn |].
    eexists. split; [reflexivity |]. split; reflexivity.
  - cbn [flat_map forallb] in *. apply andb_true_iff in Hroots as [Hr Hrs].
    rewrite <- !app_assoc in *.
    assert (Hr' : VdfNode.new fuel (node_bytes r ++ flat_map node_bytes rs ++ x08 :: rest)
                  <> None) by (intros E; apply Hnn; now rewrite E).
    rewrite (proj1 (VdfNode_new_node_bytes fuel) r _ Hr Hr') in *. cbn [bind] in *.
    match type of Hnn with
    | bind (VdfGame._parseBody_while fuel ?this' ?s) _ <> None =>
        assert (Hls : game_loop_state this');
        [| assert (Hw : VdfGame._parseBody_while fuel this' s <> None)
             by (intros E; apply Hnn; now rewrite E);
           rewrite (VdfGame_while_node_bytes fuel rs this' rest Hrs Hls Hw) ]
    end.
    { split; [reflexivity |]. exists [], (decoded r). split; [reflexivity |].
      now apply decoded_not_End. }
    cbn [bind]. norm_game. unfold js_pop, js_push. cbn [app].
    rewrite app_comm_cons, removelast_last.
    eexists. split; [reflexivity |]. norm_game. split; [| reflexivity].
    cbn [List.length]. lia.
Qed.

(** [new VdfGame(stream)] on the bytes of an entry. *)
Lemma VdfGame_decode_entry_bytes (header : list byte) (roots : list NodeTree)
    (rest : Readable) :
  List.length header = 48%nat ->
  forallb well_formed roots = true ->
  exists g,
    VdfGame.decode (header ++ flat_map node_bytes roots ++ x08 :: rest)
      = Some (Ok g, rest)
    /\ VdfGame._childrenCount g = Z.of_nat (List.length roots)
    /\ VdfGame._children g = map decoded roots.
Proof.
  intros Hlen Hroots. unfold VdfGame.decode.
  apply VdfGame_new_entry_bytes; [assumption | assumption |].
  apply VdfGame_decode_total.
Qed.

(** An entry laid out without the terminator of its root-level nodes:
    the loop of [_parseBody] runs into the end of the input. *)
Lemma VdfGame_new_without_terminator (fuel : nat) (header : list byte) (root : NodeTree) :
  List.length header = 48%nat ->
  well_formed root = true ->
  (2 * List.length (header ++ node_bytes root) + 2 <= fuel)%nat ->
  VdfGame.new fuel (header ++ node_bytes root) = Some (Throw TypeError, []).
Proof.
  intros Hlen Hroot Hf. unfold VdfGame.new.
  destruct (VdfGame_parseHeader_complete (header ++ node_bytes root))
    as (this & Hh & Hc0 & Hch0); [rewrite length_app; lia |].
  rewrite skipn_app, <- Hlen, skipn_all, Nat.sub_diag, skipn_O in Hh. cbn [app] in Hh.
  rewrite Hh. unfold VdfGame._parseBody.
  destruct this as [f1 f2 f3 f4 f5 f6 f7 cnt chs]. norm_game in *. subst cnt chs.
  rewrite length_app in Hf.
  assert (Hn : VdfNode.new fuel (node_bytes root ++ []) <> None)
    by (apply VdfNode_fuel_enough; rewrite app_nil_r; lia).
  pose proof (proj1 (VdfNode_new_node_bytes fuel) root [] Hroot Hn) as Hr.
  rewrite app_nil_r in Hr. rewrite Hr. cbn [bind]. norm_game.
  destruct fuel as [| [| fuel']]; [lia | lia |].
  cbn [VdfGame._parseBody_while]. norm_game. unfold js_push. cbn [app].
  change (js_index [decoded root] (0 + 1 - 1)) with (Some (decoded root)).
  cbv iota. rewrite (decoded_not_End root Hroot). reflexivity.
Qed.

(** ** The constructor of [Vdf]: fuel *)

Section VdfFuel.
Variable APPINFO : Z.
Variable VdfVersions : list Z.

Lemma Vdf_parseBody_enough (fuel : nat) :
  forall this s, (2 * List.length s + 2 <= fuel)%nat ->
  Vdf._parseBody fuel this s <> None.
Proof.
  induction fuel as [| fuel IH]; [intros; lia |].
  intros this s Hf. cbn [Vdf._parseBody].
  destruct (VdfGame.new fuel s) as [[[game | e] s1] |] eqn:H1.
  - apply VdfGame_new_consumes in H1. apply IH. lia.
  - discriminate.
  - exfalso. revert H1. apply VdfGame_new_enough. lia.
Qed.

Lemma Vdf_parseHeader_length (s s' : Readable) (r : Result Vdf.t) :
  Vdf._parseHeader APPINFO VdfVersions s = (r, s') ->
  (List.length s' <= List.length s)%nat.
Proof.
  unfold Vdf._parseHeader.
  pose proof (parseNumber_length s 32) as H1.
  destruct (parseNumber s 32) as [sign s1]. cbn [snd] in H1.
  destruct (negb (Vdf.includes (Vdf._vdfFileTypes APPINFO) sign)).
  - intros H. injection H as _ <-. exact H1.
  - pose proof (parseNumber_length s1 32) as H2.
    destruct (parseNumber s1 32) as [version s2]. cbn [snd] in H2.
    destruct (negb (Vdf.includes (Vdf._vdfVersions VdfVersions) version));
      intros H; injection H as _ <-; lia.
Qed.

(** [new Vdf(buffer)] always returns or throws. *)
Lemma Vdf_decode_total (buffer : Buffer) :
  Vdf.decode APPINFO VdfVersions buffer <> None.
Proof.
  unfold Vdf.decode, Vdf.new.
  destruct (Vdf._parseHeader APPINFO VdfVersions buffer) as [[this | e] s] eqn:Hh;
    [| discriminate].
  apply Vdf_parseHeader_length in Hh.
  pose proof (Vdf_parseBody_enough (fuel_of buffer) this s) as Hb.
  destruct (Vdf._parseBody (fuel_of buffer) this s) as [[this' s'] |];
    [discriminate |].
  exfalso. apply Hb; [unfold fuel_of; lia | reflexivity].
Qed.
End VdfFuel.

(** ** C10: the externalised entry *)

(** C10, counterexample: an entry whose header declares size 7 and whose
    root-level node is a map named [dataSize]; the entry is decoded, and
    the [dataSize] property of its JSON is the (empty) object of that
    node, not the header field. *)
Lemma child_named_dataSize_overrides_header :
  exists g,
    VdfGame.decode
      ([x00; x00; x00; x00; x07; x00; x00; x00] ++ repeat x00 40
       ++ x00 :: cstring "dataSize" ++ [x08; x08])
      = Some (Ok g, [])
    /\ VdfGame._dataSize g = Some 7
    /\ obj_get "dataSize" (VdfGame.json g) = Some (JsObject []).
Proof.
  eexists. split; [vm_compute; reflexivity |]. split; reflexivity.
Qed.

(** C10, as the code has it: the JSON of an entry has the own properties
    [appId], [dataSize], [infoState], [lastUpdated] and [changeNumber];
    each holds its header field unless a root-level node of that name
    overrides it; the access token and the digest do not enter the
    object, which is the same whatever their values, and which has a
    property [accessToken] or [sha] only when a root-level node is named
    so. *)
Theorem game_json_header_fields (g : VdfGame.t) :
  let object := VdfGame.json g in
  (forall key,
      In key ["appId"; "dataSize"; "infoState"; "lastUpdated"; "changeNumber"]%string ->
      obj_get key object <> None)
  /\ (forall key field,
      In (key, field)
         [("appId"%string, VdfGame._appId g); ("dataSize"%string, VdfGame._dataSize g);
          ("infoState"%string, VdfGame._infoState g);
          ("lastUpdated"%string, VdfGame._lastUpdated g);
          ("changeNumber"%string, VdfGame._changeNumber g)] ->
      (forall child, In child (VdfGame._children g) ->
                     property_key (VdfNode._name child) <> key) ->
      obj_get key object = Some (num_json field))
  /\ (forall accessToken sha,
      VdfGame.json
        (VdfGame.mk (VdfGame._appId g) (VdfGame._dataSize g) (VdfGame._infoState g)
           (VdfGame._lastUpdated g) accessToken sha (VdfGame._changeNumber g)
           (VdfGame._childrenCount g) (VdfGame._children g))
      = object)
  /\ (forall key, In key ["accessToken"; "sha"]%string ->
      (forall child, In child (VdfGame._children g) ->
                     property_key (VdfNode._name child) <> key) ->
      obj_get key object = None).
Proof.
  intros object. subst object. unfold VdfGame.json.
  repeat match goal with |- _ /\ _ => split end.
  - intros key Hin. apply (obj_get_assign_children_present (VdfGame._children g)).
    cbn [In] in Hin.
    destruct Hin as [<- | [<- | [<- | [<- | [<- | []]]]]]; discriminate.
  - intros key field Hin Hno.
    etransitivity; [exact (obj_get_assign_children_other _ _ key Hno) |].
    cbn [In] in Hin.
    destruct Hin as [[= <- <-] | [[= <- <-] | [[= <- <-] | [[= <- <-] | [[= <- <-] | []]]]]];
      reflexivity.
  - reflexivity.
  - intros key Hin Hno.
    etransitivity; [exact (obj_get_assign_children_other _ _ key Hno) |].
    cbn [In] in Hin. destruct Hin as [<- | [<- | []]]; reflexivity.
Qed.

Lemma game_json_header_fields_witness :
  exists g,
    VdfGame.decode
      ([x0a; x00; x00; x00; x07; x00; x00; x00] ++ repeat x11 40
       ++ x00 :: cstring "appinfo" ++ [x08; x08])
      = Some (Ok g, [])
    /\ obj_get "dataSize" (VdfGame.json g) = Some (JsNumber 7)
    /\ obj_get "appId" (VdfGame.json g) = Some (JsNumber 10)
    /\ obj_get "accessToken" (VdfGame.json g) = None
    /\ obj_get "sha" (VdfGame.json g) = None.
Proof.
  eexists. split; [vm_compute; reflexivity |].
  match goal with
  | |- context [VdfGame.json ?g] =>
      destruct (game_json_header_fields g) as (_ & Hval & _ & Habsent)
  end.
  assert (Hno : forall key, key <> "appinfo"%string ->
            forall child,
              In child [VdfNode.mk (Some 0) (Some "appinfo"%string) JsUndefined 0 []] ->
              property_key (VdfNode._name child) <> key).
  { intros key Hk child [<- | []]. cbn. congruence. }
  split; [apply (Hval "dataSize"%string (Some 7)); [cbn; auto | apply Hno; discriminate] |].
  split; [apply (Hval "appId"%string (Some 10)); [cbn; auto | apply Hno; discriminate] |].
  split; apply Habsent; try (apply Hno; discriminate); cbn; auto.
Defined.

(** ** C7: the file header *)

Lemma includes_In (array : list Z) (x : Z) :
  Vdf.includes array (Some x) = true <-> In x array.
Proof.
  unfold Vdf.includes. rewrite existsb_exists. split.
  - intros (y & Hin & Hy). cbn [strict_eq] in Hy. apply Z.eqb_eq in Hy. now subst.
  - intros Hin. exists x. split; [exact Hin | apply Z.eqb_refl].
Qed.

Lemma includes_not_In (array : list Z) (x : Z) :
  ~ In x array -> Vdf.includes array (Some x) = false.
Proof.
  intros H. destruct (Vdf.includes array (Some x)) eqn:E; [| reflexivity].
  now apply includes_In in E.
Qed.

(** For a constant in the non-negative int32 range, such as the
    documented signature 123094055, the signed and the unsigned reading
    of four bytes differ from it together. *)
Lemma int32_le_neq_unsigned (c : Z) (b0 b1 b2 b3 : byte) :
  0 <= c < 2147483648 ->
  uint_le [b0; b1; b2; b3] <> c -> int32_le b0 b1 b2 b3 <> c.
Proof.
  intros Hc Hne. unfold int32_le.
  cbn [uint_le] in *.
  pose proof (byte_to_Z_range b0). pose proof (byte_to_Z_range b1).
  pose proof (byte_to_Z_range b2). pose proof (byte_to_Z_range b3).
  set (u := byte_to_Z b0 + 256 * (byte_to_Z b1 + 256 * (byte_to_Z b2
              + 256 * (byte_to_Z b3 + 256 * 0)))) in *.
  assert (Hu : 0 <= u < 4294967296) by (subst u; lia).
  destruct (Z.lt_ge_cases u 2147483648) as [Hlow | Hhigh].
  - rewrite wrap32_small by lia. exact Hne.
  - replace u with (u - 4294967296 + 1 * 4294967296) by lia.
    rewrite wrap32_add_multiple, wrap32_small by lia. lia.
Qed.

(** C7: when the first four bytes, read as a little-endian 32-bit
    integer, are not the accepted signature, the constructor throws the
    invalid-file-type error having read those four bytes only; when they
    are, and the next four bytes are not an accepted version, it throws
    the invalid-version error having read those eight bytes only.  No
    entry is constructed in either case.  The integer compared is the
    signed reading that [parseNumber] returns; for a signature constant
    below 2^31 the unsigned reading rejects the same buffers. *)
Theorem header_rejection (APPINFO : Z) (VdfVersions : list Z)
    (b0 b1 b2 b3 v0 v1 v2 v3 : byte) (rest : Readable) :
  (int32_le b0 b1 b2 b3 <> APPINFO ->
   Vdf.decode APPINFO VdfVersions (b0 :: b1 :: b2 :: b3 :: rest)
   = Some (Throw (Error ("Invalid VDF file type: "
                         ++ Vdf.number_toString (Some (int32_le b0 b1 b2 b3)))),
           rest))
  /\ (0 <= APPINFO < 2147483648 -> uint_le [b0; b1; b2; b3] <> APPINFO ->
      Vdf.decode APPINFO VdfVersions (b0 :: b1 :: b2 :: b3 :: rest)
      = Some (Throw (Error ("Invalid VDF file type: "
                            ++ Vdf.number_toString (Some (int32_le b0 b1 b2 b3)))),
              rest))
  /\ (int32_le b0 b1 b2 b3 = APPINFO ->
      ~ In (int32_le v0 v1 v2 v3) VdfVersions ->
      Vdf.decode APPINFO VdfVersions (b0 :: b1 :: b2 :: b3 :: v0 :: v1 :: v2 :: v3 :: rest)
      = Some (Throw (Error "Invalid VDF version"), rest)).
Proof.
  assert (Hbad : int32_le b0 b1 b2 b3 <> APPINFO ->
    Vdf.decode APPINFO VdfVersions (b0 :: b1 :: b2 :: b3 :: rest)
    = Some (Throw (Error ("Invalid VDF file type: "
                          ++ Vdf.number_toString (Some (int32_le b0 b1 b2 b3)))),
            rest)).
  { intros Hsig. unfold Vdf.decode, Vdf.new, Vdf._parseHeader.
    rewrite parseNumber_32.
    rewrite (includes_not_In (Vdf._vdfFileTypes APPINFO)); [reflexivity |].
    unfold Vdf._vdfFileTypes. cbn [In]. intros [H | []]. now apply Hsig. }
  split; [exact Hbad |]. split.
  - intros Hrange Hne. apply Hbad. now apply int32_le_neq_unsigned.
  - intros Hsig Hver. unfold Vdf.decode, Vdf.new, Vdf._parseHeader.
    rewrite parseNumber_32.
    rewrite (proj2 (includes_In (Vdf._vdfFileTypes APPINFO) _))
      by (unfold Vdf._vdfFileTypes; left; now symmetry).
    cbn [negb]. rewrite parseNumber_32.
    rewrite (includes_not_In (Vdf._vdfVersions VdfVersions)) by exact Hver.
    reflexivity.
Qed.

Lemma header_rejection_witness :
  Vdf.decode 123094055 [1] [x27; x44; x56; x06; x01; x00; x00; x00; x2a]
  = Some (Throw (Error "Invalid VDF file type: 106316839"), [x01; x00; x00; x00; x2a])
  /\ Vdf.decode 123094055 [1] [x27; x44; x56; x87; x01; x00; x00; x00; x2a]
     = Some (Throw (Error "Invalid VDF file type: -2024389593"),
             [x01; x00; x00; x00; x2a])
  /\ Vdf.decode 123094055 [1] [x27; x44; x56; x07; x02; x00; x00; x00; x2a]
     = Some (Throw (Error "Invalid VDF version"), [x2a]).
Proof.
  split; [| split].
  - apply (proj1 (header_rejection 123094055 [1] x27 x44 x56 x06 x01 x00 x00 x00
                    [x01; x00; x00; x00; x2a])).
    vm_compute. discriminate.
  - apply (proj1 (proj2 (header_rejection 123094055 [1] x27 x44 x56 x87 x01 x00 x00 x00
                           [x01; x00; x00; x00; x2a]))).
    + lia.
    + vm_compute. discriminate.
  - apply (proj2 (proj2 (header_rejection 123094055 [1] x27 x44 x56 x07 x02 x00 x00 x00
                           [x2a]))).
    + reflexivity.
    + vm_compute. intros [H | []]. discriminate.
Defined.

(** ** C1 and C2: the entry loop *)

Lemma Vdf_decode_valid_header (APPINFO : Z) (VdfVersions : list Z)
    (b0 b1 b2 b3 v0 v1 v2 v3 : byte) (body : Readable) :
  int32_le b0 b1 b2 b3 = APPINFO ->
  In (int32_le v0 v1 v2 v3) VdfVersions ->
  Vdf.decode APPINFO VdfVersions (b0 :: b1 :: b2 :: b3 :: v0 :: v1 :: v2 :: v3 :: body)
  = match Vdf._parseBody (S (S (2 * List.length body + 17)))
            (Vdf.mk (Some APPINFO) (Some (int32_le v0 v1 v2 v3)) 0 []) body with
    | None => None
    | Some (this, stream) => Some (Ok this, stream)
    end.
Proof.
  intros Hsig Hver. unfold Vdf.decode, Vdf.new, Vdf._parseHeader.
  rewrite parseNumber_32.
  rewrite (proj2 (includes_In (Vdf._vdfFileTypes APPINFO) _))
    by (unfold Vdf._vdfFileTypes; left; now symmetry).
  cbn [negb]. rewrite parseNumber_32.
  rewrite (proj2 (includes_In (Vdf._vdfVersions VdfVersions) _)) by exact Hver.
  cbn [negb]. rewrite Hsig.
  replace (fuel_of (b0 :: b1 :: b2 :: b3 :: v0 :: v1 :: v2 :: v3 :: body))
    with (S (S (2 * List.length body + 17))) by (unfold fuel_of; cbn [List.length]; lia).
  reflexivity.
Qed.

(** A valid signature and version followed by the bytes of one entry
    that its constructor decodes completely: the second call of the
    constructor throws, and the [catch] clause pops the first entry. *)
Lemma Vdf_decode_single_entry (APPINFO : Z) (VdfVersions : list Z)
    (b0 b1 b2 b3 v0 v1 v2 v3 : byte) (entry : list byte) (g : VdfGame.t) :
  int32_le b0 b1 b2 b3 = APPINFO ->
  In (int32_le v0 v1 v2 v3) VdfVersions ->
  VdfGame.decode entry = Some (Ok g, []) ->
  Vdf.decode APPINFO VdfVersions (b0 :: b1 :: b2 :: b3 :: v0 :: v1 :: v2 :: v3 :: entry)
  = Some (Ok (Vdf.mk (Some APPINFO) (Some (int32_le v0 v1 v2 v3)) 1 []), []).
Proof.
  intros Hsig Hver Hentry.
  rewrite Vdf_decode_valid_header by assumption.
  cbn [Vdf._parseBody].
  rewrite VdfGame_new_decode by lia. rewrite Hentry.
  rewrite VdfGame_new_exhausted. reflexivity.
Qed.

(** C1, on the code: for a valid signature and version followed by one
    complete entry (48 header bytes, well-formed root-level nodes, the
    terminator) and no further byte, the constructor of the document
    succeeds, but its array of entries is empty while its count is 1: the
    [catch] clause pops the completed entry, the failed one never having
    been pushed. *)
Theorem single_entry_is_dropped (APPINFO : Z) (VdfVersions : list Z)
    (b0 b1 b2 b3 v0 v1 v2 v3 : byte) (header : list byte) (roots : list NodeTree) :
  int32_le b0 b1 b2 b3 = APPINFO ->
  In (int32_le v0 v1 v2 v3) VdfVersions ->
  List.length header = 48%nat ->
  forallb well_formed roots = true ->
  let doc := Vdf.mk (Some APPINFO) (Some (int32_le v0 v1 v2 v3)) 1 [] in
  (exists g, VdfGame.decode (entry_bytes header roots) = Some (Ok g, [])
             /\ VdfGame._children g = map decoded roots)
  /\ Vdf.decode APPINFO VdfVersions
       (b0 :: b1 :: b2 :: b3 :: v0 :: v1 :: v2 :: v3 :: entry_bytes header roots)
     = Some (Ok doc, [])
  /\ games (Vdf.jsonSync doc) = [].
Proof.
  intros Hsig Hver Hlen Hroots doc.
  destruct (VdfGame_decode_entry_bytes header roots [] Hlen Hroots)
    as (g & Hg & _ & Hch).
  unfold entry_bytes.
  split; [exists g; now split |]. split; [| reflexivity].
  now apply (Vdf_decode_single_entry APPINFO VdfVersions _ _ _ _ _ _ _ _ _ g).
Qed.

Lemma single_entry_is_dropped_witness :
  (exists g,
      VdfGame.decode (entry_bytes (repeat x00 48) [TMap "appinfo" [TString "name" "x"]])
        = Some (Ok g, [])
      /\ VdfGame._children g = map decoded [TMap "appinfo" [TString "name" "x"]])
  /\ Vdf.decode 123094055 [1]
       (x27 :: x44 :: x56 :: x07 :: x01 :: x00 :: x00 :: x00
        :: entry_bytes (repeat x00 48) [TMap "appinfo" [TString "name" "x"]])
     = Some (Ok (Vdf.mk (Some 123094055) (Some 1) 1 []), [])
  /\ games (Vdf.jsonSync (Vdf.mk (Some 123094055) (Some 1) 1 [])) = [].
Proof.
  apply (single_entry_is_dropped 123094055 [1] x27 x44 x56 x07 x01 x00 x00 x00
           (repeat x00 48) [TMap "appinfo" [TString "name" "x"]]).
  - reflexivity.
  - left. reflexivity.
  - reflexivity.
  - reflexivity.
Defined.

(** The same header followed by an entry laid out without the final
    terminator (48 header bytes and one root node): the constructor of
    the entry throws at the end of the input, and the document has no
    entry and count 0. *)
Lemma entry_without_terminator_not_decoded (APPINFO : Z) (VdfVersions : list Z)
    (b0 b1 b2 b3 v0 v1 v2 v3 : byte) (header : list byte) (root : NodeTree) :
  int32_le b0 b1 b2 b3 = APPINFO ->
  In (int32_le v0 v1 v2 v3) VdfVersions ->
  List.length header = 48%nat ->
  well_formed root = true ->
  Vdf.decode APPINFO VdfVersions
    (b0 :: b1 :: b2 :: b3 :: v0 :: v1 :: v2 :: v3 :: header ++ node_bytes root)
  = Some (Ok (Vdf.mk (Some APPINFO) (Some (int32_le v0 v1 v2 v3)) 0 []), []).
Proof.
  intros Hsig Hver Hlen Hroot.
  rewrite Vdf_decode_valid_header by assumption.
  cbn [Vdf._parseBody].
  rewrite VdfGame_new_without_terminator by (assumption || lia).
  reflexivity.
Qed.

(** The loop of [_parseBody] started with a count equal to the length of
    the array ends either with count 0 and no entry, or with a count one
    more than the number of entries kept. *)
Lemma Vdf_parseBody_count (fuel : nat) :
  forall this s this' s',
    Vdf._childrenCount this = Z.of_nat (List.length (Vdf._children this)) ->
    Vdf._parseBody fuel this s = Some (this', s') ->
    (Vdf._childrenCount this' = 0 /\ Vdf._children this' = [])
    \/ Vdf._childrenCount this' = Z.of_nat (List.length (Vdf._children this')) + 1.
Proof.
  induction fuel as [| fuel IH]; [intros; discriminate |].
  intros this s this' s' Hc H. cbn [Vdf._parseBody] in H.
  destruct (VdfGame.new fuel s) as [[[game | e] s1] |]; [| | discriminate].
  - apply IH in H; [exact H |].
    destruct this as [sg vs cnt chs]. cbn in *. unfold js_push.
    rewrite length_app. cbn [List.length]. lia.
  - injection H as <- _. destruct this as [sg vs cnt chs]. cbn in *.
    destruct chs as [| c chs].
    + left. cbn in *. split; [lia | reflexivity].
    + right. unfold js_pop. rewrite removelast_firstn_len, length_firstn.
      cbn [List.length] in *. lia.
Qed.

(** C2, on the code: whenever the constructor of the document succeeds,
    the count of its JSON is 0 with no entries, or it is the number of
    entries plus one; the two agree only when no entry was completed. *)
Theorem count_exceeds_entries (APPINFO : Z) (VdfVersions : list Z)
    (buffer : Buffer) (doc : Vdf.t) (rest : Readable) :
  Vdf.decode APPINFO VdfVersions buffer = Some (Ok doc, rest) ->
  (count (Vdf.jsonSync doc) = 0 /\ games (Vdf.jsonSync doc) = [])
  \/ count (Vdf.jsonSync doc) = Z.of_nat (List.length (games (Vdf.jsonSync doc))) + 1.
Proof.
  unfold Vdf.decode, Vdf.new, Vdf._parseHeader.
  destruct (parseNumber buffer 32) as [sg s1].
  destruct (negb (Vdf.includes (Vdf._vdfFileTypes APPINFO) sg)); [discriminate |].
  destruct (parseNumber s1 32) as [vs s2].
  destruct (negb (Vdf.includes (Vdf._vdfVersions VdfVersions) vs)); [discriminate |].
  destruct (Vdf._parseBody (fuel_of buffer) (Vdf.mk sg vs 0 []) s2) as [[this s3] |] eqn:Hb;
    [| discriminate].
  intros H. injection H as <- _.
  apply Vdf_parseBody_count in Hb; [| reflexivity].
  unfold Vdf.jsonSync. cbn [count games]. rewrite length_map.
  destruct Hb as [[H0 Hnil] | H1]; [left | right; exact H1].
  rewrite Hnil. split; [exact H0 | reflexivity].
Qed.

Lemma count_exceeds_entries_witness :
  let buffer :=
    [x27; x44; x56; x07; x01; x00; x00; x00]
    ++ repeat x00 48 ++ x00 :: cstring "appinfo" ++ [x08; x08] in
  let doc := Vdf.mk (Some 123094055) (Some 1) 1 [] in
  Vdf.decode 123094055 [1] buffer = Some (Ok doc, [])
  /\ count (Vdf.jsonSync doc) = 1
  /\ games (Vdf.jsonSync doc) = []
  /\ ((count (Vdf.jsonSync doc) = 0 /\ games (Vdf.jsonSync doc) = [])
      \/ count (Vdf.jsonSync doc)
         = Z.of_nat (List.length (games (Vdf.jsonSync doc))) + 1).
Proof.
  intros buffer doc. split; [vm_compute; reflexivity |].
  split; [reflexivity |]. split; [reflexivity |].
  apply (count_exceeds_entries 123094055 [1] buffer doc []).
  vm_compute. reflexivity.
Defined.

(** * Further properties of the decoder *)

(** ** [parseNumber]: ranges and the 64-bit read *)

Lemma high_bits_zero_lt (x n : Z) :
  0 <= n -> (forall i, n <= i -> Z.testbit x i = false) -> 0 <= x < 2 ^ n.
Proof.
  intros Hn Hbits.
  assert (Hx : x = x mod 2 ^ n).
  { apply Z.bits_inj'. intros i Hi.
    destruct (Z.lt_ge_cases i n) as [Hlt | Hge].
    - now rewrite Z.mod_pow2_bits_low.
    - rewrite Z.mod_pow2_bits_high by lia. now apply Hbits. }
  rewrite Hx. apply Z.mod_pos_bound. apply Z.pow_pos_nonneg; lia.
Qed.

Lemma small_nonneg_high_bits (x n i : Z) :
  0 <= x < 2 ^ n -> n <= i -> Z.testbit x i = false.
Proof.
  intros Hx Hi. destruct (Z.eq_dec x 0) as [-> | Hnz]; [apply Z.bits_0 |].
  apply Z.bits_above_log2; [lia |].
  apply Z.lt_le_trans with n; [| exact Hi].
  apply Z.log2_lt_pow2; lia.
Qed.

(** The bitwise or of two int32 values is an int32 value. *)
Lemma lor_int32_range (a b : Z) :
  -2147483648 <= a < 2147483648 -> -2147483648 <= b < 2147483648 ->
  -2147483648 <= Z.lor a b < 2147483648.
Proof.
  intros Ha Hb. change 2147483648 with (2 ^ 31) in *.
  destruct (Z.lt_ge_cases (Z.lor a b) 0) as [Hneg | Hpos].
  - split; [| lia].
    assert (Hl : 0 <= Z.lnot (Z.lor a b) < 2 ^ 31).
    { apply high_bits_zero_lt; [lia |]. intros i Hi.
      rewrite Z.lnot_lor, Z.land_spec.
      apply Z.lor_neg in Hneg as [Hn | Hn].
      - rewrite (small_nonneg_high_bits (Z.lnot a) 31 i); [reflexivity | | exact Hi].
        unfold Z.lnot. lia.
      - rewrite (small_nonneg_high_bits (Z.lnot b) 31 i);
          [apply andb_false_r | | exact Hi].
        unfold Z.lnot. lia. }
    unfold Z.lnot in Hl. lia.
  - apply Z.lor_nonneg in Hpos as [Ha0 Hb0].
    assert (Hl : 0 <= Z.lor a b < 2 ^ 31); [| lia].
    apply high_bits_zero_lt; [lia |]. intros i Hi.
    rewrite Z.lor_spec.
    rewrite (small_nonneg_high_bits a 31 i), (small_nonneg_high_bits b 31 i) by lia.
    reflexivity.
Qed.

Lemma js_shl_range (a : NumberOrUndefined) (k : Z) :
  -2147483648 <= js_shl a k < 2147483648.
Proof. apply wrap32_range. Qed.

Lemma js_or_range (a b : NumberOrUndefined) :
  -2147483648 <= js_or a b < 2147483648.
Proof. apply wrap32_range. Qed.

Lemma byte_int32_range (b : byte) :
  -2147483648 <= byte_to_Z b < 2147483648.
Proof. pose proof (byte_to_Z_range b). lia. Qed.

Lemma js_or_lor (a b : Z) :
  -2147483648 <= a < 2147483648 -> -2147483648 <= b < 2147483648 ->
  js_or (Some a) (Some b) = Z.lor a b.
Proof.
  intros Ha Hb. rewrite js_or_small by assumption.
  apply wrap32_small. now apply lor_int32_range.
Qed.

Create HintDb int32.
#[local] Hint Resolve js_shl_range js_or_range byte_int32_range lor_int32_range
  wrap32_range : int32.

(** After one iteration or more the loop of [parseNumber] holds an int32. *)
Lemma parseNumber_loop_int32 (buffer : Buffer) (iters i : nat) (number : NumberOrUndefined) :
  (1 <= iters)%nat ->
  exists n, parseNumber_loop buffer i iters number = Some n
            /\ -2147483648 <= n < 2147483648.
Proof.
  revert i number. induction iters as [| iters IH]; intros i number H; [lia |].
  cbn [parseNumber_loop].
  destruct iters as [| iters'].
  - eexists. split; [reflexivity | apply js_or_range].
  - apply IH. lia.
Qed.

(** The or-chain computed by a 32-bit read, as a plain bitwise or. *)
Lemma int32_le_lor (b0 b1 b2 b3 : byte) :
  int32_le b0 b1 b2 b3
  = Z.lor (Z.lor (Z.lor (byte_to_Z b0) (js_shl (Some (byte_to_Z b1)) 8))
                 (js_shl (Some (byte_to_Z b2)) 16))
          (js_shl (Some (byte_to_Z b3)) 24).
Proof.
  pose proof (parseNumber_32 b0 b1 b2 b3 []) as H.
  unfold parseNumber in H. change (Nat.div 32 8) with 4%nat in H.
  cbn [Readable_read firstn skipn Nat.sub parseNumber_loop Buffer_get nth_error
       option_map] in H.
  change (Z.of_nat 1 * 8) with 8 in H. change (Z.of_nat 2 * 8) with 16 in H.
  change (Z.of_nat 3 * 8) with 24 in H.
  rewrite (js_or_lor (byte_to_Z b0)) in H by auto with int32.
  rewrite js_or_lor in H by auto with int32.
  rewrite js_or_lor in H by auto 6 with int32.
  injection H as H. now symmetry.
Qed.

(** X1: with four bytes available a 32-bit [parseNumber] consumes exactly
    those bytes and returns their little-endian composition as a signed
    32-bit integer: the unsigned value when the fourth byte is below
    0x80, the unsigned value minus 2^32 otherwise. *)
Theorem parseNumber_32_little_endian (b0 b1 b2 b3 : byte) (rest : Readable) :
  exists n,
    parseNumber (b0 :: b1 :: b2 :: b3 :: rest) 32 = (Some n, rest)
    /\ -2147483648 <= n < 2147483648
    /\ n = (if byte_to_Z b3 <? 128 then uint_le [b0; b1; b2; b3]
            else uint_le [b0; b1; b2; b3] - 4294967296).
Proof.
  exists (int32_le b0 b1 b2 b3). split; [apply parseNumber_32 |].
  split; [apply wrap32_range |].
  unfold int32_le. cbn [uint_le].
  pose proof (byte_to_Z_range b0). pose proof (byte_to_Z_range b1).
  pose proof (byte_to_Z_range b2). pose proof (byte_to_Z_range b3).
  destruct (Z.ltb_spec (byte_to_Z b3) 128).
  - apply wrap32_small. lia.
  - match goal with |- wrap32 ?u = _ =>
      replace u with (u - 4294967296 + 1 * 4294967296) at 1 by lia end.
    rewrite wrap32_add_multiple. apply wrap32_small. lia.
Qed.

Lemma js_shl_0 (a : Z) : -2147483648 <= a < 2147483648 -> js_shl (Some a) 0 = a.
Proof.
  intros Ha. unfold js_shl, ToInt32. rewrite (wrap32_small a) by assumption.
  change (0 mod 32) with 0. rewrite Z.shiftl_0_r. now apply wrap32_small.
Qed.

Lemma parseNumber_64 (b0 b1 b2 b3 b4 b5 b6 b7 : byte) (rest : Readable) :
  parseNumber (b0 :: b1 :: b2 :: b3 :: b4 :: b5 :: b6 :: b7 :: rest) 64
  = (Some (Z.lor (int32_le b0 b1 b2 b3) (int32_le b4 b5 b6 b7)), rest).
Proof.
  unfold parseNumber. change (Nat.div 64 8) with 8%nat.
  cbn [Readable_read firstn skipn Nat.sub parseNumber_loop Buffer_get nth_error
       option_map].
  change (Z.of_nat 1 * 8) with 8. change (Z.of_nat 2 * 8) with 16.
  change (Z.of_nat 3 * 8) with 24.
  change (js_shl (Some (byte_to_Z b4)) (Z.of_nat 4 * 8))
    with (js_shl (Some (byte_to_Z b4)) 0).
  change (js_shl (Some (byte_to_Z b5)) (Z.of_nat 5 * 8))
    with (js_shl (Some (byte_to_Z b5)) 8).
  change (js_shl (Some (byte_to_Z b6)) (Z.of_nat 6 * 8))
    with (js_shl (Some (byte_to_Z b6)) 16).
  change (js_shl (Some (byte_to_Z b7)) (Z.of_nat 7 * 8))
    with (js_shl (Some (byte_to_Z b7)) 24).
  rewrite (js_shl_0 (byte_to_Z b4)) by auto with int32.
  rewrite (js_or_lor (byte_to_Z b0)) by auto with int32.
  do 2 (rewrite js_or_lor by auto 8 with int32).
  do 4 (rewrite js_or_lor by auto 12 with int32).
  rewrite !int32_le_lor, !Z.lor_assoc. reflexivity.
Qed.

(** X2: with eight bytes available a 64-bit [parseNumber] consumes them
    and returns the bitwise or of the 32-bit reading of bytes 0 to 3 and
    the 32-bit reading of bytes 4 to 7: the shift count [i * 8] is taken
    modulo 32, so the upper half lands on the lower half, and the result
    is a signed 32-bit integer. *)
Theorem parseNumber_64_or_of_halves (b0 b1 b2 b3 b4 b5 b6 b7 : byte) (rest : Readable) :
  parseNumber (b0 :: b1 :: b2 :: b3 :: b4 :: b5 :: b6 :: b7 :: rest) 64
  = (Some (Z.lor (int32_le b0 b1 b2 b3) (int32_le b4 b5 b6 b7)), rest)
  /\ -2147483648 <= Z.lor (int32_le b0 b1 b2 b3) (int32_le b4 b5 b6 b7) < 2147483648.
Proof.
  split; [apply parseNumber_64 |].
  apply lor_int32_range; apply wrap32_range.
Qed.

Lemma parseNumber_range (stream : Readable) (length : nat) :
  exists n,
    fst (parseNumber stream length) = Some n
    /\ ((Nat.div length 8 <= 1)%nat -> 0 <= n < 256)
    /\ ((2 <= Nat.div length 8)%nat -> -2147483648 <= n < 2147483648).
Proof.
  unfold parseNumber.
  destruct (Readable_read stream (Nat.div length 8)) as [r s'] eqn:Hr.
  set (buffer := match r with Some b => b | None => [x00] end).
  assert (Hb : exists b, Buffer_get buffer 0 = Some (byte_to_Z b)).
  { subst buffer. destruct r as [b |]; [| now exists x00].
    apply Readable_read_nonempty in Hr. destruct b as [| b0 b]; [contradiction |].
    now exists b0. }
  destruct Hb as [b0 Hb0]. cbn [fst]. rewrite Hb0.
  destruct (Nat.le_gt_cases (Nat.div length 8) 1) as [Hle | Hgt].
  - replace (Nat.div length 8 - 1)%nat with 0%nat by lia. cbn [parseNumber_loop].
    exists (byte_to_Z b0). split; [reflexivity |].
    split; [intros _; apply byte_to_Z_range | lia].
  - destruct (parseNumber_loop_int32 buffer (Nat.div length 8 - 1) 1
                (Some (byte_to_Z b0))) as (n & Hn & Hrange); [lia |].
    exists n. split; [exact Hn |]. split; [lia | intros _; exact Hrange].
Qed.

(** X3: for a width of [bytes] whole bytes [parseNumber] never yields
    [undefined], whatever is left in the stream: for a width of one byte
    the result is a byte value, and for every width of two bytes or more
    it is a signed 32-bit integer, so no more than 32 bits of a wider
    field survive. *)
Theorem parseNumber_result_range (stream : Readable) (bytes : nat) :
  exists n,
    fst (parseNumber stream (8 * bytes)) = Some n
    /\ (bytes = 1%nat -> 0 <= n < 256)
    /\ ((2 <= bytes)%nat -> -2147483648 <= n < 2147483648).
Proof.
  destruct (parseNumber_range stream (8 * bytes)) as (n & Hn & Hbyte & Hint).
  assert (Hdiv : Nat.div (8 * bytes) 8 = bytes)
    by (rewrite Nat.mul_comm; apply Nat.div_mul; discriminate).
  rewrite Hdiv in Hbyte, Hint.
  exists n. split; [exact Hn |]. split; [intros ->; apply Hbyte; lia | exact Hint].
Qed.

Lemma parseNumber_result_range_witness :
  exists n,
    fst (parseNumber [xff; xff; xff; xff; x01; x00; x00; x00] (8 * 8)) = Some n
    /\ -2147483648 <= n < 2147483648.
Proof.
  destruct (parseNumber_result_range [xff; xff; xff; xff; x01; x00; x00; x00] 8)
    as (n & Hn & _ & Hrange).
  exists n. split; [exact Hn | apply Hrange; lia].
Defined.

(** ** [parseString]: what it accepts and what it rejects *)

Lemma no_zero_byte_app (l1 l2 : list byte) :
  no_zero_byte (l1 ++ l2) = no_zero_byte l1 && no_zero_byte l2.
Proof. apply forallb_app. Qed.

Lemma list_byte_of_string_append (s1 s2 : string) :
  list_byte_of_string (s1 ++ s2) = list_byte_of_string s1 ++ list_byte_of_string s2.
Proof.
  unfold list_byte_of_string.
  induction s1 as [| a s1 IH]; cbn [append list_ascii_of_string map app];
    [reflexivity | now rewrite IH].
Qed.

Lemma parseString_loop_Ok_inv (stream : Readable) (str v : string) (stream' : Readable) :
  parseString_loop stream str = (Ok v, stream') ->
  exists w, v = (str ++ w)%string /\ stream = cstring w ++ stream' /\ no_nul w = true.
Proof.
  revert str. induction stream as [| code stream IH]; intros str; cbn [parseString_loop].
  - discriminate.
  - destruct (Byte.eqb code x00) eqn:Hc.
    + intros H. injection H as <- <-. exists EmptyString.
      apply Byte.byte_dec_bl in Hc. subst code.
      split; [now rewrite append_nil_r | split; reflexivity].
    + intros H. apply IH in H as (w & -> & -> & Hw).
      exists (String (ascii_of_byte code) w). split; [| split].
      * unfold fromCharCode. now rewrite append_assoc.
      * unfold cstring, list_byte_of_string.
        cbn [list_ascii_of_string map app]. now rewrite byte_of_ascii_of_byte.
      * unfold no_nul, list_byte_of_string in *.
        cbn [list_ascii_of_string map forallb].
        rewrite byte_of_ascii_of_byte, Hc. exact Hw.
Qed.

(** X4: [parseString] returns [v] and leaves [rest] unread exactly when
    the stream is the characters of [v], none of them NUL, then a NUL,
    then [rest]: the string ends at the first NUL, which is consumed and
    not appended. *)
Theorem parseString_accepts_cstring (stream : Readable) (v : string) (rest : Readable) :
  parseString stream = (Ok v, rest)
  <-> stream = cstring v ++ rest /\ no_nul v = true.
Proof.
  split.
  - intros H. unfold parseString in H.
    apply parseString_loop_Ok_inv in H as (w & -> & -> & Hw). now split.
  - intros [-> Hv]. now apply parseString_cstring.
Qed.

Lemma parseString_loop_no_zero (stream : Readable) (str : string) :
  no_zero_byte stream = true -> parseString_loop stream str = (Throw TypeError, []).
Proof.
  revert str. induction stream as [| code stream IH]; intros str H; [reflexivity |].
  cbn [no_zero_byte forallb] in H. apply andb_true_iff in H as [Hc Hs].
  cbn [parseString_loop]. apply negb_true_iff in Hc. rewrite Hc. now apply IH.
Qed.

(** X5: on a stream without a NUL byte (the empty stream included)
    [parseString] reads to the end of the input and throws a
    [TypeError]; it never returns an unterminated string. *)
Theorem parseString_unterminated_throws (stream : Readable) :
  no_zero_byte stream = true -> parseString stream = (Throw TypeError, []).
Proof. intros H. now apply parseString_loop_no_zero. Qed.

Lemma parseString_unterminated_throws_witness :
  parseString [x68; x65; x6c; x6c; x6f] = (Throw TypeError, []).
Proof.
  apply (parseString_unterminated_throws [x68; x65; x6c; x6c; x6f]). reflexivity.
Defined.

(** ** [parseRawBytes]: the length of the rendering *)

Lemma toString16_length (b : byte) :
  String.length (toString16 (byte_to_Z b))
  = if two_digits b then 2%nat else 1%nat.
Proof.
  unfold toString16, two_digits. rewrite Z.leb_antisym.
  destruct (byte_to_Z b <? 16); reflexivity.
Qed.

Lemma append_length (s1 s2 : string) :
  String.length (s1 ++ s2) = (String.length s1 + String.length s2)%nat.
Proof. induction s1 as [| a s1 IH]; cbn; [reflexivity | now rewrite IH]. Qed.

Lemma raw_hex_length (bs : list byte) :
  String.length (raw_hex bs)
  = (List.length bs + List.length (filter two_digits bs))%nat.
Proof.
  induction bs as [| b bs IH]; [reflexivity |].
  cbn [raw_hex filter List.length]. rewrite append_length, toString16_length, IH.
  destruct (two_digits b); cbn [List.length]; lia.
Qed.

(** X6: with all [n >= 1] bytes available [parseRawBytes] consumes them
    and returns a string with one character per byte plus one more for
    every byte that is at least 0x10; so its length lies between [n] and
    [2 * n], and is [2 * n] only when no byte is below 0x10. *)
Theorem parseRawBytes_length (bs : list byte) (rest : Readable) :
  bs <> [] ->
  exists str,
    parseRawBytes (bs ++ rest) (8 * List.length bs) = (Ok str, rest)
    /\ String.length str
       = (List.length bs + List.length (filter two_digits bs))%nat
    /\ (List.length bs <= String.length str <= 2 * List.length bs)%nat
    /\ (String.length str = (2 * List.length bs)%nat
        <-> forallb two_digits bs = true).
Proof.
  intros Hne. exists (raw_hex bs).
  split; [now apply parseRawBytes_complete |].
  split; [apply raw_hex_length |].
  rewrite raw_hex_length.
  pose proof (filter_length_le two_digits bs) as Hle.
  split; [lia |].
  clear Hne. induction bs as [| b bs IH]; [cbn; tauto |].
  cbn [filter forallb List.length] in *.
  pose proof (filter_length_le two_digits bs) as Hle'.
  destruct (two_digits b); cbn [List.length andb] in *.
  - rewrite <- IH by lia. lia.
  - split; [lia | discriminate].
Qed.

Lemma parseRawBytes_length_witness :
  exists str,
    parseRawBytes ([x00; x1a; xff] ++ [x08]) (8 * List.length [x00; x1a; xff])
      = (Ok str, [x08])
    /\ String.length str
       = (List.length [x00; x1a; xff]
          + List.length (filter two_digits [x00; x1a; xff]))%nat
    /\ (List.length [x00; x1a; xff] <= String.length str
        <= 2 * List.length [x00; x1a; xff])%nat
    /\ (String.length str = (2 * List.length [x00; x1a; xff])%nat
        <-> forallb two_digits [x00; x1a; xff] = true).
Proof.
  apply (parseRawBytes_length [x00; x1a; xff] [x08]). discriminate.
Defined.

(** ** The stream is only ever read forwards *)

Lemma is_suffix_refl (s : Readable) : is_suffix s s.
Proof. now exists []. Qed.

Lemma is_suffix_trans (s1 s2 s3 : Readable) :
  is_suffix s1 s2 -> is_suffix s2 s3 -> is_suffix s1 s3.
Proof.
  intros [c1 ->] [c2 ->]. exists (c2 ++ c1). now rewrite app_assoc.
Qed.

Lemma is_suffix_skipn (n : nat) (s : Readable) : is_suffix (skipn n s) s.
Proof. exists (firstn n s). now rewrite firstn_skipn. Qed.

Lemma is_suffix_nil (s : Readable) : is_suffix [] s.
Proof. exists s. now rewrite app_nil_r. Qed.

Lemma parseNumber_suffix (s : Readable) (length : nat) :
  is_suffix (snd (parseNumber s length)) s.
Proof. rewrite parseNumber_rest. apply is_suffix_skipn. Qed.

Lemma parseRawBytes_suffix (s : Readable) (length : nat) :
  is_suffix (snd (parseRawBytes s length)) s.
Proof. rewrite parseRawBytes_rest. apply is_suffix_skipn. Qed.

Lemma parseString_loop_suffix (s : Readable) (str : string) :
  is_suffix (snd (parseString_loop s str)) s.
Proof.
  revert str. induction s as [| code s IH]; intros str; cbn [parseString_loop].
  - apply is_suffix_refl.
  - destruct (Byte.eqb code x00); cbn [snd].
    + now exists [code].
    + apply is_suffix_trans with s; [apply IH | now exists [code]].
Qed.

Lemma _parseValue_suffix (nw : Readable -> Run VdfNode.t)
    (wh : VdfNode.t -> Readable -> Run VdfNode.t) (this : VdfNode.t) (s : Readable)
    (r : Result VdfNode.t) (s' : Readable) :
  (forall s0 r0 s1, nw s0 = Some (r0, s1) -> is_suffix s1 s0) ->
  (forall t0 s0 r0 s1, wh t0 s0 = Some (r0, s1) -> is_suffix s1 s0) ->
  VdfNode._parseValue nw wh this s = Some (r, s') -> is_suffix s' s.
Proof.
  intros Hn Hw. unfold VdfNode._parseValue.
  destruct (strict_eq (VdfNode._type this) VdfTypes.Map).
  - intros H. apply bind_Some in H as [(e & s1 & H1 & [= _ <-]) | (child & s1 & H1 & H)].
    + now apply Hn in H1.
    + apply Hn in H1.
      apply bind_Some in H as [(e & s2 & H2 & [= _ <-]) | (this2 & s2 & H2 & H)].
      * apply Hw in H2. now apply is_suffix_trans with s1.
      * apply Hw in H2. injection H as _ <-. now apply is_suffix_trans with s1.
  - destruct (strict_eq (VdfNode._type this) VdfTypes.String).
    + pose proof (parseString_loop_suffix s EmptyString) as Hs.
      fold (parseString s) in Hs.
      destruct (parseString s) as [[v | e] s1]; intros H; injection H as _ <-; exact Hs.
    + destruct (strict_eq (VdfNode._type this) VdfTypes.Int32).
      * pose proof (parseNumber_suffix s 32) as Hs.
        destruct (parseNumber s 32) as [v s1]. intros H. injection H as _ <-. exact Hs.
      * intros H. injection H as _ <-. apply is_suffix_refl.
Qed.

Lemma VdfNode_suffix (fuel : nat) :
  (forall s r s', VdfNode.new fuel s = Some (r, s') -> is_suffix s' s)
  /\ (forall this s r s', VdfNode._parseValue_while fuel this s = Some (r, s') ->
        is_suffix s' s).
Proof.
  induction fuel as [| fuel [IHn IHw]]; [split; intros; discriminate |].
  split.
  - intros s r s' H. destruct s as [| b rest].
    + rewrite VdfNode_new_nil in H. injection H as _ <-. apply is_suffix_refl.
    + rewrite VdfNode_new_cons in H.
      destruct (strict_neq (Some (byte_to_Z b)) VdfTypes.End).
      * pose proof (parseString_loop_suffix rest EmptyString) as Hs.
        fold (parseString rest) in Hs.
        destruct (parseString rest) as [[name | e] stream]; cbn [snd] in Hs.
        -- apply (_parseValue_suffix _ _ _ _ _ _ IHn IHw) in H.
           apply is_suffix_trans with rest; [| now exists [b]].
           now apply is_suffix_trans with stream.
        -- injection H as _ <-. apply is_suffix_trans with rest; [exact Hs | now exists [b]].
      * injection H as _ <-. now exists [b].
  - intros this s r s' H. cbn [VdfNode._parseValue_while] in H.
    destruct (js_index (VdfNode._children this) (VdfNode._childrenCount this - 1)) as [last |].
    + destruct (strict_neq (VdfNode._type last) VdfTypes.End).
      * apply bind_Some in H as [(e & s1 & H1 & [= _ <-]) | (child & s1 & H1 & H)].
        -- now apply IHn in H1.
        -- apply IHn in H1. apply IHw in H. now apply is_suffix_trans with s1.
      * injection H as _ <-. apply is_suffix_refl.
    + injection H as _ <-. apply is_suffix_refl.
Qed.

Lemma VdfGame_parseHeader_suffix (s : Readable) :
  is_suffix (snd (VdfGame._parseHeader s)) s.
Proof.
  unfold VdfGame._parseHeader.
  pose proof (parseNumber_suffix s 32) as H1.
  destruct (parseNumber s 32) as [appId s1]. cbn [snd] in H1.
  pose proof (parseNumber_suffix s1 32) as H2.
  destruct (parseNumber s1 32) as [dataSize s2]. cbn [snd] in H2.
  pose proof (parseNumber_suffix s2 32) as H3.
  destruct (parseNumber s2 32) as [infoState s3]. cbn [snd] in H3.
  pose proof (parseNumber_suffix s3 32) as H4.
  destruct (parseNumber s3 32) as [lastUpdated s4]. cbn [snd] in H4.
  pose proof (parseNumber_suffix s4 64) as H5.
  destruct (parseNumber s4 64) as [accessToken s5]. cbn [snd] in H5.
  pose proof (parseRawBytes_suffix s5 160) as H6.
  assert (H05 : is_suffix s5 s) by eauto using is_suffix_trans.
  destruct (parseRawBytes s5 160) as [[sha | e] s6]; cbn [snd] in H6.
  - pose proof (parseNumber_suffix s6 32) as H7.
    destruct (parseNumber s6 32) as [changeNumber s7]. cbn [snd] in *.
    eauto using is_suffix_trans.
  - cbn [snd]. eauto using is_suffix_trans.
Qed.

Lemma VdfGame_while_suffix (fuel : nat) :
  forall this s r s', VdfGame._parseBody_while fuel this s = Some (r, s') ->
  is_suffix s' s.
Proof.
  induction fuel as [| fuel IH]; [intros; discriminate |].
  intros this s r s' H. cbn [VdfGame._parseBody_while] in H.
  destruct (js_index (VdfGame._children this) (VdfGame._childrenCount this - 1)) as [last |].
  - destruct (strict_neq (VdfNode._type last) VdfTypes.End).
    + apply bind_Some in H as [(e & s1 & H1 & [= _ <-]) | (child & s1 & H1 & H)].
      * now apply (VdfNode_suffix fuel) in H1.
      * apply (VdfNode_suffix fuel) in H1. apply IH in H.
        now apply is_suffix_trans with s1.
    + injection H as _ <-. apply is_suffix_refl.
  - injection H as _ <-. apply is_suffix_refl.
Qed.

Lemma VdfGame_new_suffix (fuel : nat) (s : Readable) (r : Result VdfGame.t) (s' : Readable) :
  VdfGame.new fuel s = Some (r, s') -> is_suffix s' s.
Proof.
  unfold VdfGame.new, VdfGame._parseBody.
  pose proof (VdfGame_parseHeader_suffix s) as Hh.
  destruct (VdfGame._parseHeader s) as [[this | e] s0]; cbn [snd] in Hh.
  - intros H. apply bind_Some in H as [(e & s1 & H1 & [= _ <-]) | (child & s1 & H1 & H)].
    + apply (VdfNode_suffix fuel) in H1. now apply is_suffix_trans with s0.
    + apply (VdfNode_suffix fuel) in H1.
      assert (H01 : is_suffix s1 s) by now apply is_suffix_trans with s0.
      apply bind_Some in H as [(e & s2 & H2 & [= _ <-]) | (this2 & s2 & H2 & H)].
      * apply VdfGame_while_suffix in H2. now apply is_suffix_trans with s1.
      * apply VdfGame_while_suffix in H2. injection H as _ <-.
        now apply is_suffix_trans with s1.
  - intros H. injection H as _ <-. exact Hh.
Qed.

Lemma Vdf_parseBody_suffix (fuel : nat) :
  forall this s this' s', Vdf._parseBody fuel this s = Some (this', s') ->
  is_suffix s' s.
Proof.
  induction fuel as [| fuel IH]; [intros; discriminate |].
  intros this s this' s' H. cbn [Vdf._parseBody] in H.
  destruct (VdfGame.new fuel s) as [[[game | e] s1] |] eqn:H1; [| | discriminate].
  - apply VdfGame_new_suffix in H1. apply IH in H. now apply is_suffix_trans with s1.
  - apply VdfGame_new_suffix in H1. injection H as _ <-. exact H1.
Qed.

(** X7: every constructor call returns or throws, and what it leaves
    unread is a suffix of what it was given: the stream is read forwards
    only, by the node, entry and document constructors alike, whatever
    the bytes and whatever the outcome. *)
Theorem constructors_leave_a_suffix (APPINFO : Z) (VdfVersions : list Z)
    (stream : Readable) :
  (exists r s', VdfNode.decode stream = Some (r, s') /\ is_suffix s' stream)
  /\ (exists r s', VdfGame.decode stream = Some (r, s') /\ is_suffix s' stream)
  /\ (exists r s', Vdf.decode APPINFO VdfVersions stream = Some (r, s')
                   /\ is_suffix s' stream).
Proof.
  split; [| split].
  - pose proof (VdfNode_decode_total stream) as Ht.
    destruct (VdfNode.decode stream) as [[r s'] |] eqn:H; [| contradiction].
    exists r, s'. split; [reflexivity |].
    now apply (proj1 (VdfNode_suffix (fuel_of stream))) in H.
  - pose proof (VdfGame_decode_total stream) as Ht.
    destruct (VdfGame.decode stream) as [[r s'] |] eqn:H; [| contradiction].
    exists r, s'. split; [reflexivity |]. now apply VdfGame_new_suffix in H.
  - pose proof (Vdf_decode_total APPINFO VdfVersions stream) as Ht.
    destruct (Vdf.decode APPINFO VdfVersions stream) as [[r s'] |] eqn:H; [| contradiction].
    exists r, s'. split; [reflexivity |].
    unfold Vdf.decode, Vdf.new in H.
    unfold Vdf._parseHeader in H.
    pose proof (parseNumber_suffix stream 32) as H1.
    destruct (parseNumber stream 32) as [sg s1]. cbn [snd] in H1.
    destruct (negb (Vdf.includes (Vdf._vdfFileTypes APPINFO) sg)).
    + injection H as _ <-. exact H1.
    + pose proof (parseNumber_suffix s1 32) as H2.
      destruct (parseNumber s1 32) as [vs s2]. cbn [snd] in H2.
      destruct (negb (Vdf.includes (Vdf._vdfVersions VdfVersions) vs)).
      * injection H as _ <-. now apply is_suffix_trans with s1.
      * destruct (Vdf._parseBody (fuel_of stream) (Vdf.mk sg vs 0 []) s2)
          as [[this s3] |] eqn:Hb; [| discriminate].
        injection H as _ <-. apply Vdf_parseBody_suffix in Hb.
        apply is_suffix_trans with s2; [exact Hb |].
        now apply is_suffix_trans with s1.
Qed.

(** ** Nodes: decoding every well-formed tree, and the [value] getter *)

Lemma NodeTree_nested_ind (P : NodeTree -> Prop) :
  (forall name kids, Forall P kids -> P (TMap name kids)) ->
  (forall name v, P (TString name v)) ->
  (forall name b0 b1 b2 b3, P (TInt32 name b0 b1 b2 b3)) ->
  (forall tag name, P (TOther tag name)) ->
  forall t, P t.
Proof.
  intros Hmap Hstr Hint Hother. fix IH 1.
  intros [name kids | name v | name b0 b1 b2 b3 | tag name].
  - apply Hmap. induction kids as [| k kids IHkids]; constructor.
    + apply IH.
    + exact IHkids.
  - apply Hstr.
  - apply Hint.
  - apply Hother.
Qed.

Lemma VdfNode_value_decoded (t : NodeTree) :
  well_formed t = true -> VdfNode.value (decoded t) = tree_json t.
Proof.
  induction t as [name kids IH | name v | name b0 b1 b2 b3 | tag name]
    using NodeTree_nested_ind; intros Hwf.
  - cbn [decoded tree_json]. rewrite VdfNode_value_map. f_equal.
    cbn [well_formed] in Hwf. apply andb_true_iff in Hwf as [_ Hkids].
    generalize (@nil (string * VdfNodeJson)) as object.
    induction kids as [| k kids IHkids]; intros object; [reflexivity |].
    cbn [forallb] in Hkids. apply andb_true_iff in Hkids as [Hk Hks].
    inversion IH as [| ? ? IHk IHks]; subst.
    cbn [map assign_children fold_left].
    rewrite decoded_name, (IHk Hk). cbn [property_key].
    apply (IHkids IHks Hks).
  - reflexivity.
  - reflexivity.
  - cbn [well_formed] in Hwf. apply andb_true_iff in Hwf as [Htag _].
    unfold unhandled_tag in Htag.
    apply andb_true_iff in Htag as [Htag _]. apply andb_true_iff in Htag as [Htag _].
    apply andb_true_iff in Htag as [H0 _].
    cbn [decoded tree_json VdfNode.value VdfNode._type VdfNode._value].
    unfold strict_neq, strict_eq. change VdfTypes.Map with 0 in H0. now rewrite H0.
Qed.

(** X8: for every well-formed node tree (maps nested to any depth,
    strings, int32 values, tags without value) followed by any bytes,
    the constructor builds the node of that tree and leaves exactly the
    following bytes unread, and the [value] getter of that node is the
    JSON of the tree: nested objects for nested maps, the string, the
    signed integer, [undefined] for a tag without value. *)
Theorem node_tree_round_trip (t : NodeTree) (rest : Readable) :
  well_formed t = true ->
  VdfNode.decode (node_bytes t ++ rest) = Some (Ok (decoded t), rest)
  /\ VdfNode.value (decoded t) = tree_json t.
Proof.
  intros Hwf. split.
  - now apply VdfNode_decode_node_bytes.
  - now apply VdfNode_value_decoded.
Qed.

Lemma node_tree_round_trip_witness :
  VdfNode.decode
    (node_bytes (TMap "a" [TMap "b" [TString "c" "leaf"]; TInt32 "d" xfe xff xff xff])
     ++ [x2a])
  = Some (Ok (decoded (TMap "a" [TMap "b" [TString "c" "leaf"];
                                TInt32 "d" xfe xff xff xff])), [x2a])
  /\ VdfNode.value
       (decoded (TMap "a" [TMap "b" [TString "c" "leaf"]; TInt32 "d" xfe xff xff xff]))
     = tree_json (TMap "a" [TMap "b" [TString "c" "leaf"]; TInt32 "d" xfe xff xff xff]).
Proof.
  apply (node_tree_round_trip
           (TMap "a" [TMap "b" [TString "c" "leaf"]; TInt32 "d" xfe xff xff xff]) [x2a]).
  reflexivity.
Defined.

Lemma find_app {A : Type} (f : A -> bool) (l1 l2 : list A) :
  find f (l1 ++ l2) = match find f l1 with Some x => Some x | None => find f l2 end.
Proof.
  induction l1 as [| a l1 IH]; [reflexivity |].
  cbn [app find]. destruct (f a); [reflexivity | exact IH].
Qed.

(** After the assignments of a [forEach], a property other than
    [__proto__] holds the value of the last child of that name, and is
    as before when there is none. *)
Lemma obj_get_assign_children_last (children : list VdfNode.t) (object : VdfGameJson)
    (key : string) :
  key <> "__proto__"%string ->
  obj_get key (assign_children children object)
  = match last_named key children with
    | Some child => Some (VdfNode.value child)
    | None => obj_get key object
    end.
Proof.
  intros Hkey. revert object.
  induction children as [| c children IH]; intros object; [reflexivity |].
  cbn [assign_children fold_left]. fold (assign_children children).
  change (fold_left _ children ?o) with (assign_children children o).
  rewrite IH. unfold last_named. cbn [rev]. rewrite find_app.
  destruct (find _ (rev children)) as [c' |]; [reflexivity |].
  cbn [find]. rewrite obj_get_obj_set.
  destruct (String.eqb_spec (property_key (VdfNode._name c)) "__proto__") as [Hp | Hp].
  - destruct (String.eqb_spec key (property_key (VdfNode._name c))) as [He | _];
      [congruence | reflexivity].
  - destruct (String.eqb key (property_key (VdfNode._name c))); reflexivity.
Qed.

Lemma VdfNode_value_of_map (this : VdfNode.t) :
  strict_neq (VdfNode._type this) 0 = false ->
  VdfNode.value this = JsObject (assign_children (VdfNode._children this) []).
Proof.
  destruct this as [ty nm vl cnt chs]. cbn [VdfNode.value VdfNode._type VdfNode._children].
  intros ->. reflexivity.
Qed.

(** X9: the [value] getter of a map node is an object in which a key
    other than [__proto__] holds the value of the last child carrying
    that name (a later child overwrites an earlier one of the same name)
    and is absent when no child carries it; the getter of any other node
    is the node's own value. *)
Theorem map_value_last_child_wins (this : VdfNode.t) (key : string) :
  (strict_neq (VdfNode._type this) 0 = false ->
   key <> "__proto__"%string ->
   exists fields,
     VdfNode.value this = JsObject fields
     /\ obj_get key fields
        = option_map VdfNode.value (last_named key (VdfNode._children this)))
  /\ (strict_neq (VdfNode._type this) 0 = true ->
      VdfNode.value this = VdfNode._value this).
Proof.
  split.
  - intros Hmap Hkey. exists (assign_children (VdfNode._children this) []).
    split; [now apply VdfNode_value_of_map |].
    rewrite obj_get_assign_children_last by assumption.
    destruct (last_named key (VdfNode._children this)); reflexivity.
  - destruct this as [ty nm vl cnt chs].
    cbn [VdfNode.value VdfNode._type VdfNode._value]. now intros ->.
Qed.

Lemma map_value_last_child_wins_witness :
  exists fields,
    VdfNode.value
      (decoded (TMap "m" [TString "k" "first"; TInt32 "n" x01 x00 x00 x00;
                          TString "k" "second"]))
    = JsObject fields
    /\ obj_get "k" fields = Some (JsString "second").
Proof.
  destruct (map_value_last_child_wins
              (decoded (TMap "m" [TString "k" "first"; TInt32 "n" x01 x00 x00 x00;
                                  TString "k" "second"])) "k") as [H _].
  destruct H as (fields & Hv & Hk); [reflexivity | discriminate |].
  exists fields. split; [exact Hv | exact Hk].
Defined.

(** X10: in the JSON of an entry a key other than [__proto__] holds the
    value of the last root-level node carrying that name when there is
    one, header keys included; otherwise it is as in the header literal:
    the header field for the five header keys, absent for any other key. *)
Theorem game_json_lookup (g : VdfGame.t) (key : string) :
  key <> "__proto__"%string ->
  obj_get key (VdfGame.json g)
  = match last_named key (VdfGame._children g) with
    | Some child => Some (VdfNode.value child)
    | None =>
        obj_get key
          [ ("appId"%string, num_json (VdfGame._appId g));
            ("dataSize"%string, num_json (VdfGame._dataSize g));
            ("infoState"%string, num_json (VdfGame._infoState g));
            ("lastUpdated"%string, num_json (VdfGame._lastUpdated g));
            ("changeNumber"%string, num_json (VdfGame._changeNumber g)) ]
    end.
Proof.
  intros Hkey. unfold VdfGame.json. now apply obj_get_assign_children_last.
Qed.

Lemma game_json_lookup_witness :
  obj_get "common"
    (VdfGame.json
       (VdfGame.mk (Some 10) (Some 7) (Some 2) (Some 3) (Some 4) "ab" (Some 5) 2
          [decoded (TMap "common" []); decoded (TString "common" "x")]))
  = Some (JsString "x")
  /\ obj_get "sha"
       (VdfGame.json
          (VdfGame.mk (Some 10) (Some 7) (Some 2) (Some 3) (Some 4) "ab" (Some 5) 2
             [decoded (TMap "common" []); decoded (TString "common" "x")]))
     = None.
Proof.
  split.
  - exact (game_json_lookup _ "common" ltac:(discriminate)).
  - exact (game_json_lookup _ "sha" ltac:(discriminate)).
Defined.

(** ** What every constructed node and entry satisfies *)

Tactic Notation "norm_this" "in" hyp(H) :=
  cbv beta iota delta
    [VdfNode.set_children VdfNode.set_childrenCount VdfNode.set_type VdfNode.set_name
     VdfNode.set_value VdfNode._type VdfNode._name VdfNode._value
     VdfNode._childrenCount VdfNode._children] in H.

Tactic Notation "norm_game" "in" hyp(H) :=
  cbv beta iota delta
    [VdfGame.set_children VdfGame.set_childrenCount VdfGame._childrenCount
     VdfGame._children] in H.

Lemma node_ok_unfold (n : VdfNode.t) :
  node_ok n
  = (VdfNode._childrenCount n =? Z.of_nat (List.length (VdfNode._children n)))
    && children_ok (VdfNode._children n).
Proof. destruct n; reflexivity. Qed.

Lemma children_ok_app (l1 l2 : list VdfNode.t) :
  children_ok (l1 ++ l2) = children_ok l1 && children_ok l2.
Proof. apply forallb_app. Qed.

Lemma node_loop_ok_index (count : Z) (children : list VdfNode.t) :
  loop_ok count children ->
  exists pre last,
    children = pre ++ [last] /\ js_index children (count - 1) = Some last
    /\ children_ok pre = true /\ node_ok last = true
    /\ count = Z.of_nat (List.length pre) + 1.
Proof.
  intros (Hc & pre & last & Hch & Hpre & Hlast). subst children. exists pre, last.
  rewrite length_app in Hc. cbn [List.length] in Hc.
  assert (Hc' : count = Z.of_nat (List.length pre) + 1) by lia.
  repeat split; try assumption. rewrite Hc'. apply js_index_last.
Qed.

Lemma loop_ok_push (count : Z) (children : list VdfNode.t) (last child : VdfNode.t) :
  loop_ok count children ->
  js_index children (count - 1) = Some last ->
  strict_neq (VdfNode._type last) VdfTypes.End = true ->
  node_ok child = true ->
  loop_ok (count + 1) (js_push children child).
Proof.
  intros Hok Hidx Hlast Hchild.
  destruct (node_loop_ok_index _ _ Hok) as (pre & last' & -> & Hidx' & Hpre & Hl' & Hc).
  assert (last' = last) by congruence. subst last'.
  split.
  - unfold js_push. rewrite !length_app. cbn [List.length]. lia.
  - exists (pre ++ [last]), child. split; [reflexivity |]. split; [| exact Hchild].
    rewrite children_ok_app, Hpre. cbn [children_ok forallb].
    now rewrite Hlast, Hl'.
Qed.

Lemma loop_ok_pop (count : Z) (children : list VdfNode.t) :
  loop_ok count children ->
  (count - 1 =? Z.of_nat (List.length (js_pop children))) && children_ok (js_pop children)
  = true.
Proof.
  intros Hok.
  destruct (node_loop_ok_index _ _ Hok) as (pre & last & -> & _ & Hpre & _ & Hc).
  unfold js_pop. rewrite removelast_last, Hpre, andb_true_r. apply Z.eqb_eq. lia.
Qed.

Lemma _parseValue_ok (nw : Readable -> Run VdfNode.t)
    (wh : VdfNode.t -> Readable -> Run VdfNode.t) (this n : VdfNode.t)
    (s s' : Readable) :
  (forall s0 c s1, nw s0 = Some (Ok c, s1) -> node_ok c = true) ->
  (forall t0 s0 t1 s1, wh t0 s0 = Some (Ok t1, s1) ->
     loop_ok (VdfNode._childrenCount t0) (VdfNode._children t0) ->
     loop_ok (VdfNode._childrenCount t1) (VdfNode._children t1)) ->
  VdfNode._childrenCount this = 0 -> VdfNode._children this = [] ->
  VdfNode._parseValue nw wh this s = Some (Ok n, s') -> node_ok n = true.
Proof.
  intros Hn Hw Hc Hch. destruct this as [ty nm vl cnt chs]. cbn in Hc, Hch. subst cnt chs.
  unfold VdfNode._parseValue. cbn [VdfNode._type].
  destruct (strict_eq ty VdfTypes.Map).
  - intros H. apply bind_Some in H as [(e & s1 & H1 & [=]) | (child & s1 & H1 & H)].
    apply Hn in H1.
    apply bind_Some in H as [(e & s2 & H2 & [=]) | (this2 & s2 & H2 & H)].
    apply Hw in H2.
    + injection H as <- _. rewrite node_ok_unfold. destruct this2 as [ty2 nm2 vl2 cnt2 chs2].
      norm_this. norm_this in H2. now apply loop_ok_pop.
    + norm_this. split; [reflexivity |]. exists [], child. now repeat split.
  - destruct (strict_eq ty VdfTypes.String).
    + destruct (parseString s) as [[v | e] s1]; [| discriminate].
      intros H. injection H as <- _. reflexivity.
    + destruct (strict_eq ty VdfTypes.Int32).
      * destruct (parseNumber s 32) as [v s1]. intros H. injection H as <- _. reflexivity.
      * intros H. injection H as <- _. reflexivity.
Qed.

Lemma VdfNode_new_ok (fuel : nat) :
  (forall s n s', VdfNode.new fuel s = Some (Ok n, s') -> node_ok n = true)
  /\ (forall this s this' s', VdfNode._parseValue_while fuel this s = Some (Ok this', s') ->
        loop_ok (VdfNode._childrenCount this) (VdfNode._children this) ->
        loop_ok (VdfNode._childrenCount this') (VdfNode._children this')).
Proof.
  induction fuel as [| fuel [IHn IHw]]; [split; intros; discriminate |].
  split.
  - intros s n s' H. destruct s as [| b rest]; [discriminate |].
    rewrite VdfNode_new_cons in H.
    destruct (strict_neq (Some (byte_to_Z b)) VdfTypes.End).
    + destruct (parseString rest) as [[name | e] stream]; [| discriminate].
      now apply (_parseValue_ok _ _ _ _ _ _ IHn IHw) in H.
    + injection H as <- _. reflexivity.
  - intros this s this' s' H Hok. cbn [VdfNode._parseValue_while] in H.
    destruct (js_index (VdfNode._children this) (VdfNode._childrenCount this - 1))
      as [last |] eqn:Hidx; [| discriminate].
    destruct (strict_neq (VdfNode._type last) VdfTypes.End) eqn:Hlast.
    + apply bind_Some in H as [(e & s1 & H1 & [=]) | (child & s1 & H1 & H)].
      apply IHn in H1. apply IHw in H; [exact H |].
      destruct this as [ty nm vl cnt chs]. norm_this. norm_this in Hok.
      norm_this in Hidx. now apply (loop_ok_push cnt chs last child).
    + injection H as <- _. exact Hok.
Qed.

Lemma VdfGame_while_ok (fuel : nat) :
  forall this s this' s', VdfGame._parseBody_while fuel this s = Some (Ok this', s') ->
    loop_ok (VdfGame._childrenCount this) (VdfGame._children this) ->
    loop_ok (VdfGame._childrenCount this') (VdfGame._children this').
Proof.
  induction fuel as [| fuel IH]; [intros; discriminate |].
  intros this s this' s' H Hok. cbn [VdfGame._parseBody_while] in H.
  destruct (js_index (VdfGame._children this) (VdfGame._childrenCount this - 1))
    as [last |] eqn:Hidx; [| discriminate].
  destruct (strict_neq (VdfNode._type last) VdfTypes.End) eqn:Hlast.
  - apply bind_Some in H as [(e & s1 & H1 & [=]) | (child & s1 & H1 & H)].
    apply (VdfNode_new_ok fuel) in H1. apply IH in H; [exact H |].
    destruct this as [f1 f2 f3 f4 f5 f6 f7 cnt chs]. norm_game. norm_game in Hok.
    norm_game in Hidx. now apply (loop_ok_push cnt chs last child).
  - injection H as <- _. exact Hok.
Qed.

(** The header of an entry leaves the count and the array as initialised. *)
Lemma VdfGame_parseHeader_fresh (s s0 : Readable) (this : VdfGame.t) :
  VdfGame._parseHeader s = (Ok this, s0) ->
  VdfGame._childrenCount this = 0 /\ VdfGame._children this = [].
Proof.
  unfold VdfGame._parseHeader.
  destruct (parseNumber s 32) as [appId s1].
  destruct (parseNumber s1 32) as [dataSize s2].
  destruct (parseNumber s2 32) as [infoState s3].
  destruct (parseNumber s3 32) as [lastUpdated s4].
  destruct (parseNumber s4 64) as [accessToken s5].
  destruct (parseRawBytes s5 160) as [[sha | e] s6]; [| discriminate].
  destruct (parseNumber s6 32) as [changeNumber s7].
  intros H. injection H as <- _. split; reflexivity.
Qed.

(** X11: whatever the input, a node that the constructor returns has a
    count equal to the length of its array of children, none of its
    children carries the terminator tag, and the same holds of every
    descendant; an entry that its constructor returns has a count equal
    to the number of its root-level nodes, none of them a terminator and
    each of them such a node. *)
Theorem constructed_nodes_are_consistent (stream : Readable) :
  (forall node rest, VdfNode.decode stream = Some (Ok node, rest) ->
     node_ok node = true)
  /\ (forall g rest, VdfGame.decode stream = Some (Ok g, rest) ->
        VdfGame._childrenCount g = Z.of_nat (List.length (VdfGame._children g))
        /\ children_ok (VdfGame._children g) = true).
Proof.
  split.
  - intros node rest H. now apply (proj1 (VdfNode_new_ok (fuel_of stream))) in H.
  - intros g rest H. unfold VdfGame.decode, VdfGame.new, VdfGame._parseBody in H.
    destruct (VdfGame._parseHeader stream) as [[this | e] s0] eqn:Hh; [| discriminate].
    apply VdfGame_parseHeader_fresh in Hh as [Hc Hch].
    apply bind_Some in H as [(e & s1 & H1 & [=]) | (child & s1 & H1 & H)].
    apply (VdfNode_new_ok (fuel_of stream)) in H1.
    apply bind_Some in H as [(e & s2 & H2 & [=]) | (this2 & s2 & H2 & H)].
    apply VdfGame_while_ok in H2.
    + injection H as <- _. destruct this2 as [f1 f2 f3 f4 f5 f6 f7 cnt2 chs2].
      norm_game. norm_game in H2. apply loop_ok_pop in H2.
      apply andb_true_iff in H2 as [Hcount Hok]. apply Z.eqb_eq in Hcount. now split.
    + destruct this as [f1 f2 f3 f4 f5 f6 f7 cnt chs]. norm_game. norm_game in Hc.
      norm_game in Hch. subst cnt chs.
      split; [reflexivity |]. exists [], child. now repeat split.
Qed.

Lemma constructed_nodes_are_consistent_witness :
  node_ok (decoded (TMap "a" [TString "b" "c"; TMap "d" []])) = true
  /\ (exists g,
        VdfGame.decode (entry_bytes (repeat x00 48) [TMap "appinfo" []]) = Some (Ok g, [])
        /\ VdfGame._childrenCount g = Z.of_nat (List.length (VdfGame._children g))
        /\ children_ok (VdfGame._children g) = true).
Proof.
  split.
  - apply (proj1 (constructed_nodes_are_consistent
                    (node_bytes (TMap "a" [TString "b" "c"; TMap "d" []])))
             _ []).
    vm_compute. reflexivity.
  - destruct (VdfGame_decode_entry_bytes (repeat x00 48) [TMap "appinfo" []] [])
      as (g & Hg & _); [reflexivity | reflexivity |].
    exists g. split; [exact Hg |].
    exact (proj2 (constructed_nodes_are_consistent _) g [] Hg).
Defined.

(** ** Truncated input *)

(** A short read of [parseNumber] returns what it would return were the
    missing bytes zero, and leaves nothing unread. *)
Lemma parseNumber_zero_fill (stream : Readable) (bytes : nat) :
  (List.length stream < bytes)%nat ->
  parseNumber stream (8 * bytes)
  = (fst (parseNumber (stream ++ repeat x00 (bytes - List.length stream)) (8 * bytes)),
     []).
Proof.
  intros Hshort. rewrite (parseNumber_eta stream). f_equal.
  - unfold parseNumber. rewrite Nat.mul_comm, Nat.div_mul by discriminate.
    destruct bytes as [| bytes]; [lia |].
    destruct stream as [| b stream].
    + cbn [Readable_read app List.length Nat.sub repeat fst].
      rewrite firstn_all2 by (cbn [List.length]; rewrite repeat_length; lia).
      cbn [Buffer_get nth_error option_map].
      apply (parseNumber_loop_ext [x00] (x00 :: repeat x00 bytes)).
      intros j. transitivity (ToInt32 (Buffer_get [] j)).
      * exact (ToInt32_Buffer_get_pad [] 1 j).
      * symmetry. exact (ToInt32_Buffer_get_pad [] (S bytes) j).
    + cbn [Readable_read app fst].
      rewrite firstn_all2 by (cbn [List.length] in *; lia).
      change (b :: stream ++ repeat x00 (S bytes - List.length (b :: stream)))
        with ((b :: stream) ++ repeat x00 (S bytes - List.length (b :: stream))).
      rewrite firstn_all2
        by (rewrite length_app, repeat_length; cbn [List.length] in *; lia).
      cbn [Buffer_get nth_error option_map app].
      apply parseNumber_loop_ext. intros j. symmetry.
      exact (ToInt32_Buffer_get_pad (b :: stream) _ j).
  - rewrite Nat.mul_comm, Nat.div_mul by discriminate. apply skipn_all2. lia.
Qed.

(** A short read of [parseRawBytes] of two bytes or more throws. *)
Lemma parseRawBytes_short (stream : Readable) (bytes : nat) :
  (List.length stream < bytes)%nat -> (2 <= bytes)%nat ->
  parseRawBytes stream (8 * bytes) = (Throw TypeError, []).
Proof.
  intros Hshort H2. unfold parseRawBytes.
  rewrite Nat.mul_comm, Nat.div_mul by discriminate.
  destruct bytes as [| bytes]; [lia |].
  destruct stream as [| b stream].
  - cbn [Readable_read]. f_equal. apply parseRawBytes_loop_short. cbn [List.length]. lia.
  - cbn [Readable_read].
    rewrite firstn_all2, skipn_all2 by (cbn [List.length] in *; lia).
    f_equal. apply parseRawBytes_loop_short. cbn [List.length] in *. lia.
Qed.

Lemma fuel_of_S (stream : Readable) :
  fuel_of stream = S (S (S (2 * List.length stream))).
Proof. unfold fuel_of. lia. Qed.

(** X12: an int32 node whose value is cut short by the end of the input
    (0 to 3 value bytes instead of 4) is not rejected: the constructor
    returns the node, its value being the little-endian reading of the
    bytes present with zero for each missing byte. *)
Theorem truncated_int32_is_zero_filled (name : string) (vb : list byte) :
  no_nul name = true ->
  (List.length vb < 4)%nat ->
  VdfNode.decode (x02 :: cstring name ++ vb)
  = Some (Ok (VdfNode.mk (Some VdfTypes.Int32) (Some name)
                (JsNumber (int32_le (nth 0 vb x00) (nth 1 vb x00)
                                    (nth 2 vb x00) (nth 3 vb x00)))
                0 []),
          []).
Proof.
  intros Hname Hlen. unfold VdfNode.decode. rewrite fuel_of_S, VdfNode_new_cons.
  change (strict_neq (Some (byte_to_Z x02)) VdfTypes.End) with true. cbv iota.
  rewrite parseString_cstring by assumption.
  unfold VdfNode._parseValue. cbn [VdfNode._type].
  change (strict_eq (Some (byte_to_Z x02)) VdfTypes.Map) with false.
  change (strict_eq (Some (byte_to_Z x02)) VdfTypes.String) with false.
  change (strict_eq (Some (byte_to_Z x02)) VdfTypes.Int32) with true. cbv iota.
  change 32%nat with (8 * 4)%nat. rewrite (parseNumber_zero_fill vb 4) by assumption.
  destruct vb as [| a [| b [| c [| d vb]]]]; cbn [List.length] in Hlen; try lia;
    cbn [app repeat List.length Nat.sub nth];
    change (8 * 4)%nat with 32%nat; rewrite parseNumber_32; reflexivity.
Qed.

Lemma truncated_int32_is_zero_filled_witness :
  VdfNode.decode (x02 :: cstring "n" ++ [x34; x12])
  = Some (Ok (VdfNode.mk (Some 2) (Some "n"%string)
                (JsNumber (int32_le (nth 0 [x34; x12] x00) (nth 1 [x34; x12] x00)
                                    (nth 2 [x34; x12] x00) (nth 3 [x34; x12] x00)))
                0 []),
          [])
  /\ int32_le (nth 0 [x34; x12] x00) (nth 1 [x34; x12] x00)
              (nth 2 [x34; x12] x00) (nth 3 [x34; x12] x00) = 4660.
Proof.
  split; [| reflexivity].
  apply (truncated_int32_is_zero_filled "n" [x34; x12]).
  - reflexivity.
  - cbn. lia.
Defined.

(** The loop of a map whose input ends after complete children. *)
Lemma VdfNode_while_unterminated (fuel : nat) :
  forall kids this, forallb well_formed kids = true -> loop_state this ->
    VdfNode._parseValue_while fuel this (flat_map node_bytes kids) <> None ->
    VdfNode._parseValue_while fuel this (flat_map node_bytes kids)
    = Some (Throw TypeError, []).
Proof.
  induction fuel as [| fuel IH]; [intros ? ? _ _ H; now contradiction H |].
  intros kids this Hkids Hls Hnn.
  destruct (loop_state_index this Hls) as (last & Hidx & Hlast).
  cbn [VdfNode._parseValue_while] in *. rewrite Hidx, Hlast in *.
  destruct kids as [| k ks].
  - cbn [flat_map] in *.
    destruct fuel as [| fuel']; [now contradiction Hnn | reflexivity].
  - cbn [flat_map forallb] in *. apply andb_true_iff in Hkids as [Hk Hks].
    assert (Hk' : VdfNode.new fuel (node_bytes k ++ flat_map node_bytes ks) <> None)
      by (intros E; apply Hnn; now rewrite E).
    rewrite (proj1 (VdfNode_new_node_bytes fuel) k _ Hk Hk') in *. cbn [bind] in *.
    apply IH; [exact Hks | | exact Hnn].
    destruct Hls as (Hc & pre & last' & Hch & Hl').
    destruct this as [ty nm vl cnt chs]. norm_this in *.
    split.
    + norm_this. unfold js_push. rewrite length_app, Hc. cbn [List.length]. lia.
    + exists chs, (decoded k). split; [reflexivity |]. now apply decoded_not_End.
Qed.

(** X13: a map whose input ends after its name and any number of
    complete children, without the terminator, is never returned: the
    constructor reads to the end of the input and throws a [TypeError]. *)
Theorem unterminated_map_throws (name : string) (kids : list NodeTree) :
  well_formed (TMap name kids) = true ->
  VdfNode.decode (x00 :: cstring name ++ flat_map node_bytes kids)
  = Some (Throw TypeError, []).
Proof.
  intros Hwf. cbn [well_formed] in Hwf. apply andb_true_iff in Hwf as [Hname Hkids].
  pose proof (VdfNode_decode_total (x00 :: cstring name ++ flat_map node_bytes kids))
    as Hnn.
  unfold VdfNode.decode in *. rewrite fuel_of_S in *.
  rewrite VdfNode_new_cons in *.
  change (strict_neq (Some (byte_to_Z x00)) VdfTypes.End) with true in *. cbv iota in *.
  rewrite parseString_cstring in * by assumption.
  unfold VdfNode._parseValue in *.
  change (strict_eq (VdfNode._type (VdfNode.mk (Some (byte_to_Z x00)) (Some name) JsUndefined 0 []))
            VdfTypes.Map) with true in *. cbv iota in *.
  destruct kids as [| k ks].
  - reflexivity.
  - cbn [flat_map forallb] in *. apply andb_true_iff in Hkids as [Hk Hks].
    match type of Hnn with
    | bind (VdfNode.new ?f ?s) _ <> None =>
        assert (Hk' : VdfNode.new f s <> None) by (intros E; apply Hnn; now rewrite E);
        rewrite (proj1 (VdfNode_new_node_bytes f) k _ Hk Hk') in *
    end.
    cbn [bind] in *. norm_this in *.
    match type of Hnn with
    | bind (VdfNode._parseValue_while ?f ?this ?s) _ <> None =>
        assert (Hw : VdfNode._parseValue_while f this s <> None)
          by (intros E; apply Hnn; now rewrite E);
        rewrite (VdfNode_while_unterminated f ks this Hks) by
          (exact Hw ||
           (split; [reflexivity |]; exists [], (decoded k); split; [reflexivity |];
            now apply decoded_not_End))
    end.
    reflexivity.
Qed.

Lemma unterminated_map_throws_witness :
  VdfNode.decode (x00 :: cstring "m" ++ flat_map node_bytes [TString "k" "v"; TMap "e" []])
  = Some (Throw TypeError, []).
Proof.
  apply (unterminated_map_throws "m" [TString "k" "v"; TMap "e" []]). reflexivity.
Defined.

(** ** Entries: the header fields and the shortest entry *)

Lemma VdfGame_parseHeader_fields (header : list byte) (rest : Readable) :
  List.length header = 48%nat ->
  VdfGame._parseHeader (header ++ rest) = (Ok (decoded_entry header []), rest).
Proof.
  intros Hlen.
  do 48 (destruct header as [| ? header]; [discriminate |]).
  destruct header; [clear Hlen | discriminate].
  unfold VdfGame._parseHeader. cbn [app].
  do 4 (rewrite parseNumber_32; cbv beta iota).
  rewrite parseNumber_64. cbv beta iota.
  rewrite parseRawBytes_available
    by (change (Nat.div 160 8) with 20%nat; cbn [List.length]; lia).
  change (Nat.div 160 8) with 20%nat. cbn [firstn skipn].
  rewrite parseNumber_32. reflexivity.
Qed.

Lemma VdfGame_parseBody_exact (fuel : nat)
    (f1 f2 f3 f4 f5 : NumberOrUndefined) (f6 : string) (f7 : NumberOrUndefined)
    (roots : list NodeTree) (rest : Readable) :
  forallb well_formed roots = true ->
  VdfGame._parseBody fuel (VdfGame.mk f1 f2 f3 f4 f5 f6 f7 0 [])
    (flat_map node_bytes roots ++ x08 :: rest) <> None ->
  VdfGame._parseBody fuel (VdfGame.mk f1 f2 f3 f4 f5 f6 f7 0 [])
    (flat_map node_bytes roots ++ x08 :: rest)
  = Some (Ok (VdfGame.mk f1 f2 f3 f4 f5 f6 f7 (Z.of_nat (List.length roots))
                (map decoded roots)),
          rest).
Proof.
  intros Hroots Hnn. unfold VdfGame._parseBody in *. norm_game in *.
  destruct roots as [| r rs].
  - cbn [flat_map app] in *.
    destruct fuel as [| fuel']; [now contradiction Hnn | reflexivity].
  - cbn [flat_map forallb] in *. apply andb_true_iff in Hroots as [Hr Hrs].
    rewrite <- !app_assoc in *.
    assert (Hr' : VdfNode.new fuel (node_bytes r ++ flat_map node_bytes rs ++ x08 :: rest)
                  <> None) by (intros E; apply Hnn; now rewrite E).
    rewrite (proj1 (VdfNode_new_node_bytes fuel) r _ Hr Hr') in *. cbn [bind] in *.
    match type of Hnn with
    | bind (VdfGame._parseBody_while fuel ?this' ?s) _ <> None =>
        assert (Hls : game_loop_state this');
        [| assert (Hw : VdfGame._parseBody_while fuel this' s <> None)
             by (intros E; apply Hnn; now rewrite E);
           rewrite (VdfGame_while_node_bytes fuel rs this' rest Hrs Hls Hw) ]
    end.
    { split; [reflexivity |]. exists [], (decoded r). split; [reflexivity |].
      now apply decoded_not_End. }
    clear Hnn Hw Hls.
    cbn [bind]. norm_game. unfold js_pop, js_push. cbn [app map List.length].
    change (decoded r :: map decoded rs ++ [terminator])
      with ((decoded r :: map decoded rs) ++ [terminator]).
    rewrite (removelast_last (decoded r :: map decoded rs) terminator).
    replace (0 + 1 + Z.of_nat (List.length rs) + 1 - 1)
      with (Z.of_nat (S (List.length rs))) by lia.
    reflexivity.
Qed.

Lemma VdfGame_new_entry_exact (fuel : nat) (header : list byte)
    (roots : list NodeTree) (rest : Readable) :
  List.length header = 48%nat ->
  forallb well_formed roots = true ->
  VdfGame.new fuel (header ++ flat_map node_bytes roots ++ x08 :: rest) <> None ->
  VdfGame.new fuel (header ++ flat_map node_bytes roots ++ x08 :: rest)
  = Some (Ok (decoded_entry header roots), rest).
Proof.
  intros Hlen Hroots Hnn. unfold VdfGame.new in *.
  rewrite VdfGame_parseHeader_fields in * by assumption.
  unfold decoded_entry in *.
  exact (VdfGame_parseBody_exact fuel _ _ _ _ _ _ _ roots rest Hroots Hnn).
Qed.

(** X14: for 48 header bytes, well-formed root-level nodes and the
    terminator, followed by any bytes, the constructor of an entry
    returns the entry and leaves exactly the following bytes unread: the
    four 32-bit fields come from bytes 0-3, 4-7, 8-11 and 12-15, the
    access token is the or of the 32-bit readings of bytes 16-19 and
    20-23, the digest renders bytes 24-43, the change number comes from
    bytes 44-47, and the children are the decoded root-level nodes
    without the terminator. *)
Theorem entry_round_trip (header : list byte) (roots : list NodeTree) (rest : Readable) :
  List.length header = 48%nat ->
  forallb well_formed roots = true ->
  VdfGame.decode (entry_bytes header roots ++ rest)
  = Some (Ok (decoded_entry header roots), rest).
Proof.
  intros Hlen Hroots. unfold entry_bytes. rewrite <- !app_assoc. cbn [app].
  unfold VdfGame.decode. apply VdfGame_new_entry_exact; [assumption | assumption |].
  apply VdfGame_decode_total.
Qed.

Lemma entry_round_trip_witness :
  VdfGame.decode
    (entry_bytes
       ([x0a; x00; x00; x00; x07; x00; x00; x00] ++ repeat x00 8
        ++ [x00; x00; x00; x00; x01; x00; x00; x00] ++ repeat xab 20
        ++ [x05; x00; x00; x00])
       [TMap "appinfo" [TString "name" "x"]] ++ [x2a])
  = Some (Ok (VdfGame.mk (Some 10) (Some 7) (Some 0) (Some 0) (Some 1)
                "abababababababababababababababababababab" (Some 5) 1
                [decoded (TMap "appinfo" [TString "name" "x"])]),
          [x2a]).
Proof.
  exact (entry_round_trip
           ([x0a; x00; x00; x00; x07; x00; x00; x00] ++ repeat x00 8
            ++ [x00; x00; x00; x00; x01; x00; x00; x00] ++ repeat xab 20
            ++ [x05; x00; x00; x00])
           [TMap "appinfo" [TString "name" "x"]] [x2a] eq_refl eq_refl).
Defined.

Lemma VdfGame_new_short (fuel : nat) (stream : Readable) :
  (List.length stream <= 48)%nat ->
  VdfGame.new fuel stream <> None ->
  VdfGame.new fuel stream = Some (Throw TypeError, []).
Proof.
  intros Hlen. unfold VdfGame.new, VdfGame._parseHeader.
  rewrite (parseNumber_eta stream 32). change (Nat.div 32 8) with 4%nat.
  rewrite (parseNumber_eta (skipn 4 stream) 32). change (Nat.div 32 8) with 4%nat.
  rewrite skipn_skipn. cbn [Nat.add].
  rewrite (parseNumber_eta (skipn 8 stream) 32). change (Nat.div 32 8) with 4%nat.
  rewrite skipn_skipn. cbn [Nat.add].
  rewrite (parseNumber_eta (skipn 12 stream) 32). change (Nat.div 32 8) with 4%nat.
  rewrite skipn_skipn. cbn [Nat.add].
  rewrite (parseNumber_eta (skipn 16 stream) 64). change (Nat.div 64 8) with 8%nat.
  rewrite skipn_skipn. cbn [Nat.add].
  destruct (Nat.lt_ge_cases (List.length stream) 44) as [Hlt | Hge].
  - intros _. change 160%nat with (8 * 20)%nat.
    rewrite parseRawBytes_short by (rewrite ?length_skipn; lia). reflexivity.
  - rewrite parseRawBytes_available
      by (change (Nat.div 160 8) with 20%nat; rewrite length_skipn; lia).
    change (Nat.div 160 8) with 20%nat. rewrite skipn_skipn. cbn [Nat.add].
    rewrite (parseNumber_eta (skipn 44 stream) 32). change (Nat.div 32 8) with 4%nat.
    rewrite skipn_skipn. cbn [Nat.add].
    rewrite (@skipn_all2 _ 48 stream Hlen).
    unfold VdfGame._parseBody.
    destruct fuel as [| fuel']; [intros H; now contradiction H | reflexivity].
Qed.

(** X15: an entry needs at least 49 bytes (its 48 header bytes and one
    node byte): on any stream of 48 bytes or fewer, the empty stream
    included, the constructor of an entry reads to the end of the input
    and throws a [TypeError]. *)
Theorem entry_needs_49_bytes (stream : Readable) :
  (List.length stream <= 48)%nat ->
  VdfGame.decode stream = Some (Throw TypeError, []).
Proof.
  intros Hlen. unfold VdfGame.decode.
  apply VdfGame_new_short; [exact Hlen | apply VdfGame_decode_total].
Qed.

Lemma entry_needs_49_bytes_witness :
  VdfGame.decode (repeat x08 48) = Some (Throw TypeError, []).
Proof.
  apply (entry_needs_49_bytes (repeat x08 48)). cbn. lia.
Defined.

(** ** The document: which errors escape, and what a well-formed file gives *)

(** X16: the constructor of the document always returns or throws, and
    it throws only the two header errors: the file-type error when the
    signature read from the first bytes is not the accepted one (only
    those bytes being consumed), the version error when the signature is
    accepted and the version is not; once both are accepted it always
    returns a document carrying them, whatever follows, so that no error
    raised while decoding entries reaches the caller. *)
Theorem only_header_errors_escape (APPINFO : Z) (VdfVersions : list Z) (buffer : Buffer) :
  let sign := fst (parseNumber buffer 32) in
  let version := fst (parseNumber (skipn 4 buffer) 32) in
  if negb (Vdf.includes [APPINFO] sign) then
    Vdf.decode APPINFO VdfVersions buffer
    = Some (Throw (Error ("Invalid VDF file type: " ++ Vdf.number_toString sign)),
            skipn 4 buffer)
  else if negb (Vdf.includes VdfVersions version) then
    Vdf.decode APPINFO VdfVersions buffer
    = Some (Throw (Error "Invalid VDF version"), skipn 8 buffer)
  else
    exists doc rest,
      Vdf.decode APPINFO VdfVersions buffer = Some (Ok doc, rest)
      /\ Vdf._sign doc = sign /\ Vdf._version doc = version.
Proof.
  intros sign version. subst sign version.
  pose proof (Vdf_decode_total APPINFO VdfVersions buffer) as Ht.
  unfold Vdf.decode, Vdf.new, Vdf._parseHeader, Vdf._vdfFileTypes, Vdf._vdfVersions in *.
  rewrite (parseNumber_eta buffer 32) in *. change (Nat.div 32 8) with 4%nat in *.
  cbn [fst] in *.
  destruct (negb (Vdf.includes [APPINFO] (fst (parseNumber buffer 32)))); [reflexivity |].
  rewrite (parseNumber_eta (skipn 4 buffer) 32) in *.
  change (Nat.div 32 8) with 4%nat in *. rewrite skipn_skipn in *. cbn [Nat.add fst] in *.
  destruct (negb (Vdf.includes VdfVersions (fst (parseNumber (skipn 4 buffer) 32))));
    [reflexivity |].
  match type of Ht with
  | match Vdf._parseBody ?f ?this ?s with _ => _ end <> None =>
      destruct (Vdf._parseBody f this s) as [[this' s'] |] eqn:Hb; [| now contradiction Ht]
  end.
  exists this', s'. split; [reflexivity |].
  assert (Hkeep : forall fuel this s this' s',
            Vdf._parseBody fuel this s = Some (this', s') ->
            Vdf._sign this' = Vdf._sign this /\ Vdf._version this' = Vdf._version this).
  { clear. induction fuel as [| fuel IH]; [intros; discriminate |].
    intros this s this' s' H. cbn [Vdf._parseBody] in H.
    destruct (VdfGame.new fuel s) as [[[game | e] s1] |]; [| | discriminate].
    - apply IH in H. destruct this; exact H.
    - injection H as <- _. destruct this; split; reflexivity. }
  apply Hkeep in Hb. exact Hb.
Qed.

Ltac norm_doc :=
  cbv beta iota zeta delta
    [Vdf.set_childrenCount Vdf.set_children Vdf._sign Vdf._version
     Vdf._childrenCount Vdf._children].

Tactic Notation "norm_doc" "in" hyp(H) :=
  cbv beta iota zeta delta
    [Vdf.set_childrenCount Vdf.set_children Vdf._sign Vdf._version
     Vdf._childrenCount Vdf._children] in H.

Lemma Vdf_parseBody_entries (sg vs : NumberOrUndefined) (trailing : list byte) :
  (List.length trailing <= 48)%nat ->
  forall entries fuel count children,
    Forall (fun e => List.length (fst e) = 48%nat /\ forallb well_formed (snd e) = true)
           entries ->
    Vdf._parseBody fuel (Vdf.mk sg vs count children)
      (flat_map (fun e => entry_bytes (fst e) (snd e)) entries ++ trailing) <> None ->
    Vdf._parseBody fuel (Vdf.mk sg vs count children)
      (flat_map (fun e => entry_bytes (fst e) (snd e)) entries ++ trailing)
    = Some (Vdf.mk sg vs (count + Z.of_nat (List.length entries))
              (js_pop (children ++ map (fun e => decoded_entry (fst e) (snd e)) entries)),
            []).
Proof.
  intros Htrail. induction entries as [| [header roots] entries IH];
    intros fuel count children Hall Hnn.
  - cbn [flat_map app map List.length] in *.
    destruct fuel as [| fuel]; [now contradiction Hnn |].
    cbn [Vdf._parseBody] in *.
    assert (Hg : VdfGame.new fuel trailing <> None)
      by (intros E; apply Hnn; now rewrite E).
    rewrite (VdfGame_new_short fuel trailing Htrail Hg). norm_doc.
    rewrite app_nil_r.
    replace (count + 1 - 1) with (count + Z.of_nat 0) by lia. reflexivity.
  - inversion Hall as [| ? ? [Hlen Hroots] Hall']; subst. cbn [fst snd] in *.
    cbn [flat_map map List.length fst snd] in *. unfold entry_bytes at 1 in Hnn.
    unfold entry_bytes at 1. rewrite <- !app_assoc in *. cbn [app] in *.
    destruct fuel as [| fuel]; [now contradiction Hnn |].
    cbn [Vdf._parseBody] in *.
    match type of Hnn with
    | match VdfGame.new fuel ?s with _ => _ end <> None =>
        assert (Hg : VdfGame.new fuel s <> None) by (intros E; apply Hnn; now rewrite E)
    end.
    rewrite (VdfGame_new_entry_exact fuel header roots _ Hlen Hroots Hg) in *.
    norm_doc in Hnn. norm_doc.
    rewrite (IH fuel _ _ Hall' Hnn). unfold js_push. rewrite <- !app_assoc. cbn [app].
    replace (count + 1 + Z.of_nat (List.length entries))
      with (count + Z.of_nat (S (List.length entries))) by lia.
    reflexivity.
Qed.

(** X17: for a valid signature and version followed by any number [n] of
    complete entries and then at most 48 further bytes (none, or the
    stub of a truncated entry), the constructor returns a document whose
    count is [n], whose array holds the first [n - 1] entries in order
    (none when [n] is 0), each as its own constructor decodes it, and
    which leaves no byte unread. *)
Theorem document_of_entries (APPINFO : Z) (VdfVersions : list Z)
    (b0 b1 b2 b3 v0 v1 v2 v3 : byte) (entries : list (list byte * list NodeTree))
    (trailing : list byte) :
  int32_le b0 b1 b2 b3 = APPINFO ->
  In (int32_le v0 v1 v2 v3) VdfVersions ->
  Forall (fun e => List.length (fst e) = 48%nat /\ forallb well_formed (snd e) = true)
         entries ->
  (List.length trailing <= 48)%nat ->
  Vdf.decode APPINFO VdfVersions
    (b0 :: b1 :: b2 :: b3 :: v0 :: v1 :: v2 :: v3
     :: flat_map (fun e => entry_bytes (fst e) (snd e)) entries ++ trailing)
  = Some (Ok (Vdf.mk (Some APPINFO) (Some (int32_le v0 v1 v2 v3))
                (Z.of_nat (List.length entries))
                (removelast (map (fun e => decoded_entry (fst e) (snd e)) entries))),
          []).
Proof.
  intros Hsig Hver Hall Htrail.
  pose proof (Vdf_decode_total APPINFO VdfVersions
                (b0 :: b1 :: b2 :: b3 :: v0 :: v1 :: v2 :: v3
                 :: flat_map (fun e => entry_bytes (fst e) (snd e)) entries ++ trailing))
    as Ht.
  rewrite Vdf_decode_valid_header in * by assumption.
  match type of Ht with
  | match Vdf._parseBody ?f ?this ?s with _ => _ end <> None =>
      assert (Hb : Vdf._parseBody f this s <> None)
        by (intros E; apply Ht; now rewrite E)
  end.
  rewrite (Vdf_parseBody_entries _ _ trailing Htrail entries _ 0 [] Hall Hb).
  reflexivity.
Qed.

Lemma document_of_entries_witness :
  Vdf.decode 123094055 [1]
    (x27 :: x44 :: x56 :: x07 :: x01 :: x00 :: x00 :: x00
     :: flat_map (fun e => entry_bytes (fst e) (snd e))
          [(repeat x01 48, [TMap "appinfo" [TString "name" "a"]]);
           (repeat x02 48, [TMap "appinfo" []])]
        ++ [x00; x00; x00; x00])
  = Some (Ok (Vdf.mk (Some 123094055) (Some (int32_le x01 x00 x00 x00))
                (Z.of_nat 2)
                (removelast
                   (map (fun e => decoded_entry (fst e) (snd e))
                      [(repeat x01 48, [TMap "appinfo" [TString "name" "a"]]);
                       (repeat x02 48, [TMap "appinfo" []])]))),
          []).
Proof.
  apply (document_of_entries 123094055 [1] x27 x44 x56 x07 x01 x00 x00 x00
           [(repeat x01 48, [TMap "appinfo" [TString "name" "a"]]);
            (repeat x02 48, [TMap "appinfo" []])]
           [x00; x00; x00; x00]).
  - reflexivity.
  - left. reflexivity.
  - repeat constructor.
  - cbn. lia.
Defined.
